(** * statssheets: the statistical estimation engine

    A shallow embedding of [scripts/descriptive_stats.py],
    [scripts/least_squares_matrix.py] and the numeric routines of
    [scripts/sampling_exercise.py], and the properties of the
    specification stated on it.

    Numeric model.  Python numbers are read as real numbers: every
    arithmetic operation is exact (no rounding, no overflow, no NaN).
    [float('inf')] is the extra value [PInf] of [pyfloat].  What Python
    raises is explicit: a division raises [ZeroDivisionError] when the
    divisor is zero, [math.sqrt] raises [ValueError] on a negative
    argument; an exception carries the source line that raised it, as the
    traceback does. *)

From Stdlib Require Import Reals Lra Lia Psatz List ZArith Permutation.
Import ListNotations.

Open Scope R_scope.

(** ** The Python runtime the scripts rely on *)

Module Py.

(** Exceptions, with the line of the raising statement. *)
Inductive exn : Type :=
| ZeroDivisionError (lineno : nat)
| ValueError (lineno : nat)
| StatisticsError (lineno : nat).

(** A computation returns a value or raises. *)
Inductive result (A : Type) : Type :=
| Ok (a : A)
| Raise (e : exn).
Arguments Ok {A} a.
Arguments Raise {A} e.

Definition bind {A B : Type} (c : result A) (k : A -> result B) : result B :=
  match c with
  | Ok a => k a
  | Raise e => Raise e
  end.

(** A float that may be [float('inf')]. *)
Inductive pyfloat : Type :=
| Fin (r : R)
| PInf.

(** The test [a != b]. *)
Definition Rneq_dec (a b : R) : {a <> b} + {a = b} :=
  match Req_dec_T a b with
  | left e => right e
  | right ne => left ne
  end.

(** [a / b] at source line [lineno]. *)
Definition div (lineno : nat) (a b : R) : result R :=
  if Req_dec_T b 0 then Raise (ZeroDivisionError lineno) else Ok (a / b).

(** [math.sqrt(v)] at source line [lineno]. *)
Definition math_sqrt (lineno : nat) (v : R) : result R :=
  if Rlt_dec v 0 then Raise (ValueError lineno) else Ok (sqrt v).

(** The builtin [sum] over a list of numbers. *)
Definition sum (l : list R) : R := fold_left Rplus l 0.

(** The builtin [len], as a number. *)
Definition len {A : Type} (l : list A) : R := INR (length l).

(** The builtin [zip] of two lists stops at the shorter one. *)
Definition zip {A B : Type} (a : list A) (b : list B) : list (A * B) :=
  combine a b.

End Py.

Import Py.

Declare Scope py_scope.
Notation "x <- c ;; k" := (bind c (fun x => k))
  (at level 61, c at next level, right associativity) : py_scope.
Open Scope py_scope.

(** ** scripts/descriptive_stats.py *)

Module DescriptiveStats.

Record stats : Type := mk_stats {
  n : nat;
  mean : R;
  variance : R;
  std_dev : R;
  cv : pyfloat;
  deviations : list R;
  sq_deviations : list R
}.

(** [descriptive_stats(data)], lines 19-36. *)
Definition descriptive_stats (data : list R) : result stats :=
  let n := length data in
  mean <- div 22 (sum data) (INR n) ;;
  let deviations := map (fun x => x - mean) data in
  let sq_deviations := map (fun d => d ^ 2) deviations in
  variance <- div 25 (sum sq_deviations) (INR n - 1) ;;
  std_dev <- math_sqrt 26 variance ;;
  cv <- (if Rneq_dec mean 0 then q <- div 27 std_dev mean ;; Ok (Fin q)
         else Ok PInf) ;;
  Ok (mk_stats n mean variance std_dev cv deviations sq_deviations).

(** The default of [--data], line 53. *)
Definition default_data : list R :=
  [120; 100; 130; 122; 120; 78; 100; 100; 130; 80; 100; 120].

Record energy : Type := mk_energy {
  total_kw : R;
  total_kwh : R;
  uncertainty_kwh : R
}.

(** [building_energy(mean_watts, total_fixtures, hours_per_year, cv)],
    lines 39-47; the divisor 1000 is a literal. *)
Definition building_energy (mean_watts total_fixtures hours_per_year cv : R)
  : energy :=
  let total_kw := mean_watts * total_fixtures / 1000 in
  let total_kwh := total_kw * hours_per_year in
  mk_energy total_kw total_kwh (total_kwh * cv).

End DescriptiveStats.

(** ** scripts/least_squares_matrix.py *)

Module LeastSquares.

(** A 2x2 matrix [[m00, m01], [m10, m11]] and a 2x1 vector [v0, v1]. *)
Record mat2 : Type := mk_mat2 { m00 : R; m01 : R; m10 : R; m11 : R }.
Record vec2 : Type := mk_vec2 { v0 : R; v1 : R }.

Record regression : Type := mk_regression {
  b0 : R; b1 : R;
  se_b0 : R; se_b1 : R;
  t_b0 : pyfloat; t_b1 : pyfloat;
  r_squared : R;
  ss_reg : R; ss_res : R; ss_tot : R;
  mse : R;
  y_hat : list R; residuals : list R;
  xtx : mat2; xty : vec2; xtx_inv : mat2; det : R
}.

(** [b / se if se > 0 else float('inf')], lines 62 and 63. *)
Definition t_statistic (lineno : nat) (b se : R) : result pyfloat :=
  if Rgt_dec se 0 then q <- div lineno b se ;; Ok (Fin q) else Ok PInf.

(** [ols_matrix(x, y)], lines 19-74. *)
Definition ols_matrix (x y : list R) : result regression :=
  let n := len x in
  let sum_x := sum x in
  let sum_x2 := sum (map (fun xi => xi ^ 2) x) in
  let sum_y := sum y in
  let sum_xy := sum (map (fun p => fst p * snd p) (zip x y)) in
  let xtx := mk_mat2 n sum_x sum_x sum_x2 in
  let xty := mk_vec2 sum_y sum_xy in
  let det := m00 xtx * m11 xtx - m01 xtx * m10 xtx in
  i00 <- div 35 (m11 xtx) det ;;
  i01 <- div 35 (- m01 xtx) det ;;
  i10 <- div 36 (- m10 xtx) det ;;
  i11 <- div 36 (m00 xtx) det ;;
  let xtx_inv := mk_mat2 i00 i01 i10 i11 in
  let b0 := m00 xtx_inv * v0 xty + m01 xtx_inv * v1 xty in
  let b1 := m10 xtx_inv * v0 xty + m11 xtx_inv * v1 xty in
  let y_hat := map (fun xi => b0 + b1 * xi) x in
  let residuals := map (fun p => fst p - snd p) (zip y y_hat) in
  y_mean <- div 46 sum_y n ;;
  let ss_res := sum (map (fun r => r ^ 2) residuals) in
  let ss_tot := sum (map (fun yi => (yi - y_mean) ^ 2) y) in
  let ss_reg := ss_tot - ss_res in
  r_squared <- (if Rgt_dec ss_tot 0
                then q <- div 53 ss_res ss_tot ;; Ok (1 - q)
                else Ok 0) ;;
  let p := 2 in
  mse <- div 57 ss_res (n - p) ;;
  se_b0 <- math_sqrt 58 (mse * m00 xtx_inv) ;;
  se_b1 <- math_sqrt 59 (mse * m11 xtx_inv) ;;
  t_b0 <- t_statistic 62 b0 se_b0 ;;
  t_b1 <- t_statistic 63 b1 se_b1 ;;
  Ok (mk_regression b0 b1 se_b0 se_b1 t_b0 t_b1 r_squared
        ss_reg ss_res ss_tot mse y_hat residuals xtx xty xtx_inv det).

(** The defaults of [--x] and [--y], lines 89 and 90. *)
Definition default_x : list R := [0.5; 4; 6; 8; 10].
Definition default_y : list R := [6; 7; 7; 8; 7].

End LeastSquares.

(** ** scripts/sampling_exercise.py *)

Module Sampling.

(** What the script uses of Python's [random] module: the generator
    state, [random.seed], [random.gauss], and the positions that
    [random.sample] selects in a population of [n] elements when asked
    for [k] of them. *)
Class RandomModule : Type := {
  rng : Type;
  random_seed : Z -> rng;
  random_gauss : R -> R -> rng -> R * rng;
  choose_indices : nat -> nat -> rng -> list nat * rng
}.

(** The documented behaviour of [random.sample]: [k] positions of the
    population, none of them twice. *)
Definition sample_contract (M : RandomModule) : Prop :=
  forall (n k : nat) (st : rng), (k <= n)%nat ->
    length (fst (choose_indices n k st)) = k /\
    NoDup (fst (choose_indices n k st)) /\
    Forall (fun j => (j < n)%nat) (fst (choose_indices n k st)).

Section WithLibrary.

Context {M : RandomModule}.

(** The quantile function of the standard normal distribution, which
    [statistics.NormalDist().inv_cdf] evaluates inside (0, 1). *)
Variable normal_quantile : R -> R.

(** [if seed is not None: random.seed(seed)] on the module's state. *)
Definition reseed (seed : option Z) (st : rng) : rng :=
  match seed with
  | Some s => random_seed s
  | None => st
  end.

(** The builtin [max] of two numbers keeps the first unless the
    second is greater. *)
Definition py_max (a b : R) : R := if Rgt_dec b a then b else a.

(** [[max(0, random.gauss(mean, std_dev)) for _ in range(k)]]. *)
Fixpoint gauss_draws (mean std_dev : R) (k : nat) (st : rng)
  : list R * rng :=
  match k with
  | O => ([], st)
  | S k' =>
      let (g, st1) := random_gauss mean std_dev st in
      let (rest, st2) := gauss_draws mean std_dev k' st1 in
      (py_max 0 g :: rest, st2)
  end.

(** The values of [k] successive calls [random.gauss(mean, std_dev)]. *)
Fixpoint gauss_calls (mean std_dev : R) (k : nat) (st : rng)
  : list R * rng :=
  match k with
  | O => ([], st)
  | S k' =>
      let (g, st1) := random_gauss mean std_dev st in
      let (rest, st2) := gauss_calls mean std_dev k' st1 in
      (g :: rest, st2)
  end.

(** [generate_population(mean, std_dev, n, seed=None)], lines 21-25;
    [range(n)] is empty for a negative [n]. *)
Definition generate_population (mean std_dev : R) (n : Z)
    (seed : option Z) (st : rng) : list R * rng :=
  gauss_draws mean std_dev (Z.to_nat n) (reseed seed st).

(** [random.sample(population, k)]: [ValueError] unless
    [0 <= k <= len(population)], else the elements at the chosen
    positions. *)
Definition random_sample (lineno : nat) (population : list R) (k : Z)
    (st : rng) : result (list R * rng) :=
  if ((k <? 0)%Z || (Z.of_nat (length population) <? k)%Z)%bool
  then Raise (ValueError lineno)
  else
    let (idx, st1) :=
      choose_indices (length population) (Z.to_nat k) st in
    Ok (map (fun j => nth j population 0) idx, st1).

(** [draw_sample(population, sample_size, seed=None)], lines 28-32. *)
Definition draw_sample (population : list R) (sample_size : Z)
    (seed : option Z) (st : rng) : result (list R * rng) :=
  random_sample 32 population
    (Z.min sample_size (Z.of_nat (length population)))
    (reseed seed st).

(** [sample_size_infinite(z, cv, precision)], lines 46-48. *)
Definition sample_size_infinite (z cv precision : R) : result R :=
  q <- div 48 (z * cv) precision ;; Ok (q ^ 2).

(** [sample_size_finite(n0, N)], lines 51-53. *)
Definition sample_size_finite (n0 N : R) : result R :=
  div 53 (n0 * N) (n0 + N).

(** The dict literal of line 58. *)
Definition z_table : list (R * R) :=
  [(80, 1.282); (85, 1.440); (90, 1.645); (95, 1.960); (99, 2.576)].

(** Lookup of a numeric key in a dict literal. *)
Fixpoint dict_get (k : R) (d : list (R * R)) : option R :=
  match d with
  | [] => None
  | (k', v) :: d' => if Req_dec_T k k' then Some v else dict_get k d'
  end.

(** [NormalDist().inv_cdf(p)]: [StatisticsError] unless [0 < p < 1]. *)
Definition inv_cdf (lineno : nat) (p : R) : result R :=
  if Rle_dec p 0 then Raise (StatisticsError lineno)
  else if Rge_dec p 1 then Raise (StatisticsError lineno)
  else Ok (normal_quantile p).

(** [z_score(confidence_pct)], lines 56-63. *)
Definition z_score (confidence_pct : R) : result R :=
  match dict_get confidence_pct z_table with
  | Some z => Ok z
  | None => inv_cdf 63 (0.5 + confidence_pct / 200)
  end.

Record sample_size_result : Type := mk_sample_size_result {
  z_value : R;
  n0 : R;
  n_final : option R
}.

(** The values [run_sample_size_calc(cv, precision, confidence,
    pop_size)] computes before its scenario table, lines 162-169
    (what it prints is left out); [if pop_size:] is false for [None]
    and for 0. *)
Definition run_sample_size_calc (cv precision confidence : R)
    (pop_size : option Z) : result sample_size_result :=
  z <- z_score confidence ;;
  n0 <- sample_size_infinite z cv precision ;;
  match pop_size with
  | Some N =>
      if Z.eq_dec N 0 then Ok (mk_sample_size_result z n0 None)
      else
        n_final <- sample_size_finite n0 (IZR N) ;;
        Ok (mk_sample_size_result z n0 (Some n_final))
  | None => Ok (mk_sample_size_result z n0 None)
  end.

End WithLibrary.

(** *** A small generator to run the model

    A linear congruential generator stands in for the Mersenne
    Twister; [choose_indices] is the pool loop of [random.sample]:
    [j = randbelow(n - i); result[i] = pool[j]; pool[j] = pool[n-i-1]]. *)

Definition lcg_next (s : Z) : Z := ((1103515245 * s + 12345) mod 2147483648)%Z.

Definition lcg_randbelow (m : nat) (s : Z) : nat * Z :=
  let s1 := lcg_next s in (Z.to_nat (s1 mod Z.of_nat m), s1).

Fixpoint list_set (j : nat) (v : nat) (l : list nat) : list nat :=
  match l, j with
  | [], _ => []
  | _ :: l', O => v :: l'
  | a :: l', S j' => a :: list_set j' v l'
  end.

Definition swap_remove (j : nat) (pool : list nat) : list nat :=
  firstn (length pool - 1) (list_set j (last pool O) pool).

Fixpoint sample_pool (k : nat) (pool : list nat) (s : Z) : list nat * Z :=
  match k with
  | O => ([], s)
  | S k' =>
      let (j, s1) := lcg_randbelow (length pool) s in
      let (rest, s2) := sample_pool k' (swap_remove j pool) s1 in
      (nth j pool O :: rest, s2)
  end.

Definition lcg_gauss (mu sigma : R) (s : Z) : R * Z :=
  let s1 := lcg_next s in (mu + sigma * (IZR (s1 mod 7) - 3), s1).

Definition lcg_random : RandomModule := {|
  rng := Z;
  random_seed := fun a => a;
  random_gauss := lcg_gauss;
  choose_indices := fun n k s => sample_pool k (seq 0 n) s
|}.

End Sampling.

(** ** scripts/sampling_exercise.py: statistics, histogram, scenario table *)

From Stdlib Require Import Ascii.

Module Exercise.
Import Sampling.

(** The builtin [min] of a list: the first smallest element;
    [ValueError] on an empty list. *)
Fixpoint min_from (cur : R) (l : list R) : R :=
  match l with
  | [] => cur
  | x :: rest => min_from (if Rlt_dec x cur then x else cur) rest
  end.

Definition py_min_list (lineno : nat) (l : list R) : result R :=
  match l with
  | [] => Raise (ValueError lineno)
  | x :: rest => Ok (min_from x rest)
  end.

(** The builtin [max] of a list: the first largest element. *)
Fixpoint max_from (cur : R) (l : list R) : R :=
  match l with
  | [] => cur
  | x :: rest => max_from (if Rgt_dec x cur then x else cur) rest
  end.

Definition py_max_list (lineno : nat) (l : list R) : result R :=
  match l with
  | [] => Raise (ValueError lineno)
  | x :: rest => Ok (max_from x rest)
  end.

Record stats : Type := mk_stats {
  n : nat;
  mean : R;
  variance : R;
  std_dev : R;
  cv : pyfloat;
  min : R;
  max : R
}.

(** [calc_stats(data)], lines 35-43. *)
Definition calc_stats (data : list R) : result stats :=
  let n := length data in
  mean <- div 38 (sum data) (INR n) ;;
  variance <- div 39 (sum (map (fun x => (x - mean) ^ 2) data)) (INR n - 1) ;;
  std_dev <- math_sqrt 40 variance ;;
  cv <- (if Rneq_dec mean 0 then q <- div 41 std_dev mean ;; Ok (Fin q)
         else Ok PInf) ;;
  lo <- py_min_list 43 data ;;
  hi <- py_max_list 43 data ;;
  Ok (mk_stats n mean variance std_dev cv lo hi).

(** [int(r)] of a float: truncation towards zero. *)
Definition py_int (r : R) : Z :=
  if Rle_dec 0 r then Int_part r else (- Int_part (- r))%Z.

(** [math.ceil(r)]. *)
Definition py_ceil (r : R) : Z := (- Int_part (- r))%Z.

(** What [histogram] can do: return, raise one of the exceptions of
    [exn], or raise [IndexError]. *)
Inductive outcome (A : Type) : Type :=
| Returns (a : A)
| Raises (e : exn)
| RaisesIndexError (lineno : nat).
Arguments Returns {A} a.
Arguments Raises {A} e.
Arguments RaisesIndexError {A} lineno.

(** [counts[idx] += 1] on a list of integers: a negative index counts
    from the end, an index outside the list raises [IndexError]. *)
Fixpoint incr_nth (i : nat) (counts : list Z) : list Z :=
  match counts, i with
  | [], _ => []
  | c :: rest, O => (c + 1)%Z :: rest
  | c :: rest, S i' => c :: incr_nth i' rest
  end.

Definition list_incr (lineno : nat) (counts : list Z) (idx : Z)
  : outcome (list Z) :=
  let len := Z.of_nat (length counts) in
  let i := if (idx <? 0)%Z then (idx + len)%Z else idx in
  if ((i <? 0)%Z || (len <=? i)%Z)%bool then RaisesIndexError lineno
  else Returns (incr_nth (Z.to_nat i) counts).

(** The loop of lines 71-73. *)
Fixpoint fill_counts (lo width : R) (bins : Z) (data : list R)
    (counts : list Z) : outcome (list Z) :=
  match data with
  | [] => Returns counts
  | x :: rest =>
      match div 72 (x - lo) width with
      | Raise e => Raises e
      | Ok q =>
          let idx := Z.min (py_int q) (bins - 1) in
          match list_incr 73 counts idx with
          | Returns counts' => fill_counts lo width bins rest counts'
          | Raises e => Raises e
          | RaisesIndexError l => RaisesIndexError l
          end
      end
  end.

(** The builtin [max] of a list of integers. *)
Fixpoint zmax_from (cur : Z) (l : list Z) : Z :=
  match l with
  | [] => cur
  | c :: rest => zmax_from (if (cur <? c)%Z then c else cur) rest
  end.

(** One printed line of the histogram, before formatting: the left
    edge of the bin, the bar and the count. *)
Record bin_row : Type := mk_bin_row {
  edge : R;
  bar : list ascii;
  count : Z
}.

(** ['#' * int(c / max_count * bar_width) if max_count > 0 else '']. *)
Definition bar_of (c max_count bar_width : Z) : list ascii :=
  if (0 <? max_count)%Z
  then repeat "#"%char
         (Z.to_nat (py_int (IZR c / IZR max_count * IZR bar_width)))
  else [].

(** [histogram(data, bins=10)], lines 66-79; the rows are what it
    prints, one per bin. *)
Definition histogram (data : list R) (bins : Z) : outcome (list bin_row) :=
  match py_min_list 68 data with
  | Raise e => Raises e
  | Ok lo =>
  match py_max_list 68 data with
  | Raise e => Raises e
  | Ok hi =>
  match div 69 (hi - lo) (IZR bins) with
  | Raise e => Raises e
  | Ok width =>
  let counts := repeat 0%Z (Z.to_nat bins) in
  match fill_counts lo width bins data counts with
  | Raises e => Raises e
  | RaisesIndexError l => RaisesIndexError l
  | Returns counts =>
  match counts with
  | [] => Raises (ValueError 74)
  | c :: rest =>
      let max_count := zmax_from c rest in
      let bar_width := 40%Z in
      Returns
        (map (fun i =>
                mk_bin_row (lo + INR i * width)
                  (bar_of (nth i counts 0%Z) max_count bar_width)
                  (nth i counts 0%Z))
           (seq 0 (Z.to_nat bins)))
  end end end end end.

Section WithQuantile.

Variable normal_quantile : R -> R.

(** [n_val = sample_size_finite(n0_val, pop_size) if pop_size else
    n0_val], line 182. *)
Definition corrected_size (n0_val : R) (pop_size : option Z) : result R :=
  match pop_size with
  | Some N =>
      if Z.eq_dec N 0 then Ok n0_val else sample_size_finite n0_val (IZR N)
  | None => Ok n0_val
  end.

(** One line of the scenario comparison: confidence, precision,
    [math.ceil(n0_val)] and [math.ceil(n_val)]. *)
Record scenario : Type := mk_scenario {
  conf : R;
  prec : R;
  n0_ceil : Z;
  n_ceil : Z
}.

(** The body of the two loops, lines 180-183. *)
Definition scenario_row (cv : R) (pop_size : option Z) (conf prec : R)
  : result scenario :=
  z_val <- z_score normal_quantile conf ;;
  n0_val <- sample_size_infinite z_val cv prec ;;
  n_val <- corrected_size n0_val pop_size ;;
  Ok (mk_scenario conf prec (py_ceil n0_val) (py_ceil n_val)).

(** A [for] loop whose body may raise: the first exception ends it. *)
Fixpoint for_each {A B : Type} (body : A -> result B) (l : list A)
  : result (list B) :=
  match l with
  | [] => Ok []
  | a :: rest =>
      b <- body a ;;
      bs <- for_each body rest ;;
      Ok (b :: bs)
  end.

(** The scenario comparison of [run_sample_size_calc], lines 178-183:
    the lines it prints, in order. *)
Definition scenario_comparison (cv : R) (pop_size : option Z)
  : result (list scenario) :=
  rows <- for_each
            (fun conf =>
               for_each (fun prec => scenario_row cv pop_size conf prec)
                 [0.05; 0.10; 0.20])
            [80; 90; 95] ;;
  Ok (concat rows).

(** [run_sample_size_calc(cv, precision, confidence, pop_size)], lines
    160-183, with all it prints: the values of lines 162-169, the
    required sample size [math.ceil(n_final)] of line 172 and the
    scenario comparison. *)
Definition run_sample_size_calc_report (cv precision confidence : R)
    (pop_size : option Z)
  : result (sample_size_result * option Z * list scenario) :=
  r <- run_sample_size_calc normal_quantile cv precision confidence pop_size ;;
  rows <- scenario_comparison cv pop_size ;;
  Ok (r, option_map py_ceil (n_final r), rows).

End WithQuantile.

End Exercise.

(** * Properties *)

(** ** The runtime *)

Module PyFacts.

Lemma fold_left_Rplus_acc (l : list R) (a : R) :
  fold_left Rplus l a = a + fold_left Rplus l 0.
Proof.
  revert a; induction l as [|h t IH]; intros a; simpl.
  - lra.
  - rewrite (IH (a + h)), (IH (0 + h)). lra.
Qed.

Lemma sum_nil : sum [] = 0.
Proof. reflexivity. Qed.

Lemma sum_cons (a : R) (l : list R) : sum (a :: l) = a + sum l.
Proof.
  unfold sum; simpl. rewrite fold_left_Rplus_acc. lra.
Qed.

Lemma sum_squares_nonneg (f : R -> R) (l : list R) :
  0 <= sum (map (fun v => f v ^ 2) l).
Proof.
  induction l as [|h t IH]; cbn [map].
  - rewrite sum_nil; lra.
  - rewrite sum_cons. pose proof (pow2_ge_0 (f h)). lra.
Qed.

Lemma div_ok (lineno : nat) (a b : R) :
  b <> 0 -> div lineno a b = Ok (a / b).
Proof.
  intros Hb. unfold div. destruct (Req_dec_T b 0); [contradiction | reflexivity].
Qed.

Lemma div_zero (lineno : nat) (a b : R) :
  b = 0 -> div lineno a b = Raise (ZeroDivisionError lineno).
Proof.
  intros Hb. unfold div. destruct (Req_dec_T b 0); [reflexivity | contradiction].
Qed.

Lemma math_sqrt_ok (lineno : nat) (v : R) :
  0 <= v -> math_sqrt lineno v = Ok (sqrt v).
Proof.
  intros Hv. unfold math_sqrt. destruct (Rlt_dec v 0); [lra | reflexivity].
Qed.

Lemma bind_ok {A B : Type} (a : A) (k : A -> result B) :
  bind (Ok a) k = k a.
Proof. reflexivity. Qed.

Lemma bind_raise {A B : Type} (e : exn) (k : A -> result B) :
  bind (Raise e) k = Raise e.
Proof. reflexivity. Qed.

(** Bounds on a square root from bounds on its argument. *)
Lemma sqrt_between (a b v : R) :
  0 <= a -> 0 <= b -> a * a < v -> v < b * b -> a < sqrt v < b.
Proof.
  intros Ha Hb Hav Hvb.
  assert (Hv : 0 <= v) by nra.
  split.
  - rewrite <- (sqrt_square a Ha). apply sqrt_lt_1_alt. nra.
  - rewrite <- (sqrt_square b Hb). apply sqrt_lt_1_alt. nra.
Qed.

End PyFacts.

(** ** Descriptive statistics *)

Module DescriptiveStatsFacts.
Import PyFacts DescriptiveStats.

(** On two or more observations no statement of [descriptive_stats]
    raises, and the record it returns is the following one. *)
Lemma descriptive_stats_returns (data : list R) :
  (2 <= length data)%nat ->
  let m := sum data / INR (length data) in
  let devs := map (fun x => x - m) data in
  let sqs := map (fun d => d ^ 2) devs in
  let var := sum sqs / (INR (length data) - 1) in
  descriptive_stats data =
    Ok (mk_stats (length data) m var (sqrt var)
          (if Rneq_dec m 0 then Fin (sqrt var / m) else PInf) devs sqs).
Proof.
  intros Hn m devs sqs var.
  assert (Hn2 : 2 <= INR (length data)).
  { replace 2 with (INR 2) by (simpl; lra). apply le_INR; exact Hn. }
  unfold descriptive_stats.
  rewrite div_ok by lra. rewrite bind_ok.
  rewrite div_ok by lra. rewrite bind_ok.
  fold m. fold devs. fold sqs. fold var.
  rewrite math_sqrt_ok.
  - rewrite bind_ok.
    destruct (Rneq_dec m 0) as [Hm | Hm].
    + rewrite div_ok by exact Hm. reflexivity.
    + reflexivity.
  - apply Rmult_le_pos.
    + unfold sqs, devs. rewrite map_map.
      apply (sum_squares_nonneg (fun x => x - m)).
    + left. apply Rinv_0_lt_compat. lra.
Qed.

Lemma descriptive_stats_empty :
  descriptive_stats [] = Raise (ZeroDivisionError 22).
Proof.
  unfold descriptive_stats. rewrite div_zero by reflexivity. reflexivity.
Qed.

Lemma descriptive_stats_single (v : R) :
  descriptive_stats [v] = Raise (ZeroDivisionError 25).
Proof.
  unfold descriptive_stats. simpl length.
  rewrite div_ok by (simpl; lra). rewrite bind_ok.
  rewrite div_zero by (simpl; lra). reflexivity.
Qed.

Lemma default_data_sum : sum default_data = 1300.
Proof.
  unfold default_data. repeat rewrite sum_cons. rewrite sum_nil. lra.
Qed.

Lemma default_data_sq_deviations :
  sum (map (fun d => d ^ 2) (map (fun x => x - 325 / 3) default_data))
  = 10604 / 3.
Proof.
  unfold default_data. cbn [map]. repeat rewrite sum_cons. rewrite sum_nil.
  field.
Qed.

(** What [descriptive_stats] returns on the default sample. *)
Lemma descriptive_stats_default :
  exists r, descriptive_stats default_data = Ok r /\
    n r = 12%nat /\ mean r = 325 / 3 /\ variance r = 10604 / 33 /\
    std_dev r = sqrt (10604 / 33) /\
    cv r = Fin (sqrt (10604 / 33) / (325 / 3)).
Proof.
  assert (Hlen : length default_data = 12%nat) by reflexivity.
  assert (Hm : sum default_data / INR (length default_data) = 325 / 3).
  { rewrite default_data_sum, Hlen. simpl INR. field. }
  assert (Hv : sum (map (fun d => d ^ 2)
                 (map (fun x => x - sum default_data
                                     / INR (length default_data))
                    default_data))
               / (INR (length default_data) - 1) = 10604 / 33).
  { rewrite Hm, default_data_sq_deviations, Hlen. simpl INR. field. }
  eexists. split.
  - apply descriptive_stats_returns. rewrite Hlen. lia.
  - cbn [n mean variance std_dev cv]. rewrite Hv, Hm.
    repeat split; try reflexivity.
    destruct (Rneq_dec (325 / 3) 0); [reflexivity | lra].
Qed.






End DescriptiveStatsFacts.

(** ** Regression *)

Module LeastSquaresFacts.
Import PyFacts LeastSquares.

(** The determinant of X'X, as line 33 computes it. *)
Local Notation "'detXX' x" :=
  (len x * sum (map (fun xi => xi ^ 2) x) - sum x * sum x)
  (at level 10, x at level 9, only parsing).

(** *** Sums over the observations *)

Lemma sum_map_sq_shift (a : R) (x : list R) :
  sum (map (fun xi => (xi - a) ^ 2) x)
  = sum (map (fun xi => xi ^ 2) x) - 2 * a * sum x + len x * a ^ 2.
Proof.
  unfold len. induction x as [|h t IH].
  - cbn [map length]. rewrite sum_nil. simpl INR. ring.
  - cbn [map length]. rewrite !sum_cons, S_INR, IH. ring.
Qed.

Lemma sum_squares_zero (f : R -> R) (l : list R) :
  sum (map (fun v => f v ^ 2) l) = 0 -> forall v, In v l -> f v = 0.
Proof.
  induction l as [|h t IH]; intros Hs v Hin.
  - destruct Hin.
  - cbn [map] in Hs. rewrite sum_cons in Hs.
    pose proof (sum_squares_nonneg f t) as Ht.
    pose proof (pow2_ge_0 (f h)) as Hh.
    destruct Hin as [<- | Hin].
    + assert (Hz : f h ^ 2 = 0) by lra.
      apply Rsqr_0_uniq. unfold Rsqr. lra.
    + apply IH; [lra | exact Hin].
Qed.

Lemma sum_constant (c : R) (l : list R) :
  (forall v, In v l -> v = c) ->
  sum l = len l * c /\ sum (map (fun xi => xi ^ 2) l) = len l * c ^ 2.
Proof.
  unfold len. induction l as [|h t IH]; intros Hc.
  - cbn [map length]. rewrite sum_nil. simpl INR. split; ring.
  - destruct IH as [IH1 IH2].
    { intros v Hv. apply Hc. right; exact Hv. }
    cbn [map length]. rewrite !sum_cons, S_INR, IH1, IH2.
    rewrite (Hc h (or_introl eq_refl)). split; ring.
Qed.

(** *** The determinant *)

Lemma det_cons (a : R) (x : list R) :
  detXX (a :: x) = detXX x + sum (map (fun xi => (xi - a) ^ 2) x).
Proof.
  rewrite sum_map_sq_shift. unfold len.
  cbn [map length]. rewrite !sum_cons, S_INR. ring.
Qed.

Lemma det_nonneg (x : list R) : 0 <= detXX x.
Proof.
  induction x as [|h t IH].
  - unfold len. cbn [map length]. rewrite sum_nil. simpl INR. lra.
  - rewrite det_cons.
    pose proof (sum_squares_nonneg (fun xi => xi - h) t). lra.
Qed.

Lemma identical_det_zero (x : list R) :
  (forall a b, In a x -> In b x -> a = b) -> detXX x = 0.
Proof.
  intros Hid. destruct x as [|h t].
  - unfold len. cbn [map length]. rewrite sum_nil. simpl INR. ring.
  - destruct (sum_constant h (h :: t)) as [H1 H2].
    { intros v Hv. apply Hid; [exact Hv | left; reflexivity]. }
    rewrite H1, H2. ring.
Qed.

Lemma det_zero_identical (x : list R) :
  detXX x = 0 -> forall a b, In a x -> In b x -> a = b.
Proof.
  induction x as [|h t IH]; intros Hd a b Ha Hb.
  - destruct Ha.
  - rewrite det_cons in Hd.
    pose proof (det_nonneg t) as Ht.
    pose proof (sum_squares_nonneg (fun xi => xi - h) t) as Hs.
    assert (Hall : forall v, In v (h :: t) -> v = h).
    { intros v [<- | Hv]; [reflexivity |].
      assert (Hz : v - h = 0); [| lra].
      apply (sum_squares_zero (fun xi => xi - h) t); [lra | exact Hv]. }
    rewrite (Hall a Ha), (Hall b Hb). reflexivity.
Qed.

Lemma det_short (x : list R) : (length x < 2)%nat -> detXX x = 0.
Proof.
  intros Hlt. apply identical_det_zero.
  destruct x as [|h [|h' t]]; [| | simpl in Hlt; lia].
  - intros a b [].
  - intros a b [<- | []] [<- | []]. reflexivity.
Qed.

Lemma det_pair (u v : R) : detXX [u; v] = (u - v) ^ 2.
Proof.
  unfold len. cbn [map length]. rewrite !sum_cons, sum_nil.
  simpl INR. ring.
Qed.

(** *** The three outcomes of [ols_matrix] *)

Ltac run_ols :=
  unfold ols_matrix; cbv zeta; cbn [m00 m01 m10 m11 v0 v1].

(** A zero determinant: the first division of line 35 raises. *)
Lemma ols_matrix_singular (x y : list R) :
  detXX x = 0 -> ols_matrix x y = Raise (ZeroDivisionError 35).
Proof.
  intros Hd. run_ols. rewrite div_zero by exact Hd. reflexivity.
Qed.

Lemma t_statistic_value (lineno : nat) (b se : R) :
  t_statistic lineno b se = Ok (if Rgt_dec se 0 then Fin (b / se) else PInf).
Proof.
  unfold t_statistic. destruct (Rgt_dec se 0) as [Hse | Hse].
  - rewrite div_ok by lra. reflexivity.
  - reflexivity.
Qed.

Lemma r_squared_value (ss_res ss_tot : R) :
  (if Rgt_dec ss_tot 0 then q <- div 53 ss_res ss_tot ;; Ok (1 - q)
   else Ok 0)
  = Ok (if Rgt_dec ss_tot 0 then 1 - ss_res / ss_tot else 0).
Proof.
  destruct (Rgt_dec ss_tot 0) as [Ht | Ht].
  - rewrite div_ok by lra. reflexivity.
  - reflexivity.
Qed.

(** Two observations with a nonzero determinant: the division of
    line 57 raises. *)
Lemma ols_matrix_two (x y : list R) :
  detXX x <> 0 -> length x = 2%nat ->
  ols_matrix x y = Raise (ZeroDivisionError 57).
Proof.
  intros Hd Hn.
  assert (Hlen : len x = 2) by (unfold len; rewrite Hn; simpl; lra).
  run_ols. rewrite !div_ok by exact Hd. rewrite !bind_ok.
  cbn [m00 m01 m10 m11].
  rewrite div_ok by lra. rewrite bind_ok.
  rewrite r_squared_value, bind_ok.
  rewrite div_zero by lra. reflexivity.
Qed.

(** Three or more observations with a nonzero determinant: no
    statement raises, and the record is the following one. *)
Lemma ols_matrix_returns (x y : list R) :
  detXX x <> 0 -> (3 <= length x)%nat ->
  let n := len x in
  let sxx := sum (map (fun xi => xi ^ 2) x) in
  let sxy := sum (map (fun p => fst p * snd p) (zip x y)) in
  let d := n * sxx - sum x * sum x in
  let inv := mk_mat2 (sxx / d) (- sum x / d) (- sum x / d) (n / d) in
  let c0 := m00 inv * sum y + m01 inv * sxy in
  let c1 := m10 inv * sum y + m11 inv * sxy in
  let yh := map (fun xi => c0 + c1 * xi) x in
  let res := map (fun p => fst p - snd p) (zip y yh) in
  let ssr := sum (map (fun r => r ^ 2) res) in
  let sst := sum (map (fun yi => (yi - sum y / n) ^ 2) y) in
  let ms := ssr / (n - 2) in
  let s0 := sqrt (ms * m00 inv) in
  let s1 := sqrt (ms * m11 inv) in
  ols_matrix x y =
    Ok (mk_regression c0 c1 s0 s1
          (if Rgt_dec s0 0 then Fin (c0 / s0) else PInf)
          (if Rgt_dec s1 0 then Fin (c1 / s1) else PInf)
          (if Rgt_dec sst 0 then 1 - ssr / sst else 0)
          (sst - ssr) ssr sst ms yh res
          (mk_mat2 n (sum x) (sum x) sxx) (mk_vec2 (sum y) sxy) inv d).
Proof.
  intros Hd Hn n sxx sxy d inv c0 c1 yh res ssr sst ms s0 s1.
  assert (Hlen : 3 <= n).
  { unfold n, len. replace 3 with (INR 3) by (simpl; lra).
    apply le_INR; exact Hn. }
  assert (Hdpos : 0 < d).
  { pose proof (det_nonneg x). unfold d, n, sxx. lra. }
  assert (Hssr : 0 <= ssr).
  { unfold ssr. apply (sum_squares_nonneg (fun r => r)). }
  assert (Hms : 0 <= ms).
  { unfold ms. apply Rmult_le_pos; [exact Hssr |].
    left. apply Rinv_0_lt_compat. lra. }
  assert (Hsxx : 0 <= sxx).
  { unfold sxx. apply (sum_squares_nonneg (fun r => r)). }
  run_ols. fold n. fold sxx. fold sxy. fold d.
  rewrite !div_ok by lra. rewrite !bind_ok.
  cbn [m00 m01 m10 m11].
  rewrite r_squared_value, bind_ok.
  rewrite div_ok by lra. rewrite bind_ok.
  rewrite math_sqrt_ok, bind_ok.
  2:{ apply Rmult_le_pos; [exact Hms |].
      apply Rmult_le_pos; [exact Hsxx |].
      left. apply Rinv_0_lt_compat. exact Hdpos. }
  rewrite math_sqrt_ok, bind_ok.
  2:{ apply Rmult_le_pos; [exact Hms |].
      apply Rmult_le_pos; [lra |].
      left. apply Rinv_0_lt_compat. exact Hdpos. }
  rewrite !t_statistic_value, !bind_ok. reflexivity.
Qed.

(** *** The sums of squares, through the moments of the data *)

Lemma ss_res_moments (c0 c1 : R) (x y : list R) :
  length x = length y ->
  sum (map (fun r => r ^ 2)
         (map (fun p => fst p - snd p)
            (zip y (map (fun xi => c0 + c1 * xi) x))))
  = sum (map (fun yi => yi ^ 2) y) - 2 * c0 * sum y
    - 2 * c1 * sum (map (fun p => fst p * snd p) (zip x y))
    + len x * c0 ^ 2 + 2 * c0 * c1 * sum x
    + c1 ^ 2 * sum (map (fun xi => xi ^ 2) x).
Proof.
  unfold zip, len. revert y.
  induction x as [|a x IH]; intros [|b y] Hlen; try discriminate Hlen.
  - cbn [map combine length]. rewrite !sum_nil. simpl INR. ring.
  - injection Hlen as Hlen.
    cbn [map combine length fst snd]. rewrite !sum_cons, S_INR.
    rewrite (IH y Hlen). ring.
Qed.

(** With equal lengths and a nonzero determinant, the total sum of
    squares exceeds the residual one by [b1^2 * det / n]. *)
Lemma ss_reg_closed_form (x y : list R) :
  length x = length y -> detXX x <> 0 ->
  let n := len x in
  let sxx := sum (map (fun xi => xi ^ 2) x) in
  let sxy := sum (map (fun p => fst p * snd p) (zip x y)) in
  let d := n * sxx - sum x * sum x in
  let c0 := sxx / d * sum y + - sum x / d * sxy in
  let c1 := - sum x / d * sum y + n / d * sxy in
  sum (map (fun yi => (yi - sum y / n) ^ 2) y)
  - sum (map (fun r => r ^ 2)
           (map (fun p => fst p - snd p)
              (zip y (map (fun xi => c0 + c1 * xi) x))))
  = c1 ^ 2 * d / n.
Proof.
  intros Hlen Hd n sxx sxy d c0 c1.
  assert (Hn : n <> 0).
  { intros Hz. apply Hd. fold n. rewrite Hz. ring_simplify.
    assert (Hx : x = []).
    { destruct x; [reflexivity |]. unfold n, len in Hz.
      cbn [length] in Hz. rewrite S_INR in Hz.
      pose proof (pos_INR (length x)). lra. }
    rewrite Hx, sum_nil. ring. }
  rewrite (ss_res_moments c0 c1 x y Hlen).
  rewrite sum_map_sq_shift.
  replace (len y) with n by (unfold n, len; rewrite Hlen; reflexivity).
  fold n. fold sxx. fold sxy.
  unfold c0, c1, d. field. split; assumption.
Qed.

Lemma sum_map_sq_affine (u v : R) (x : list R) :
  sum (map (fun xi => (u + v * xi) ^ 2) x)
  = len x * u ^ 2 + 2 * u * v * sum x
    + v ^ 2 * sum (map (fun xi => xi ^ 2) x).
Proof.
  unfold len. induction x as [|h t IH].
  - cbn [map length]. rewrite !sum_nil. simpl INR. ring.
  - cbn [map length]. rewrite !sum_cons, S_INR, IH. ring.
Qed.

(** The fitted coefficients minimise the residual sum of squares: any
    other line [a + b * x] has a residual sum of squares larger by the
    sum of the squared differences of the two lines. *)
Lemma least_squares_gap (a b : R) (x y : list R) :
  length x = length y -> detXX x <> 0 ->
  let n := len x in
  let sxx := sum (map (fun xi => xi ^ 2) x) in
  let sxy := sum (map (fun p => fst p * snd p) (zip x y)) in
  let d := n * sxx - sum x * sum x in
  let c0 := sxx / d * sum y + - sum x / d * sxy in
  let c1 := - sum x / d * sum y + n / d * sxy in
  sum (map (fun r => r ^ 2)
         (map (fun p => fst p - snd p)
            (zip y (map (fun xi => a + b * xi) x))))
  - sum (map (fun r => r ^ 2)
           (map (fun p => fst p - snd p)
              (zip y (map (fun xi => c0 + c1 * xi) x))))
  = sum (map (fun xi => ((a - c0) + (b - c1) * xi) ^ 2) x).
Proof.
  intros Hlen Hd n sxx sxy d c0 c1.
  rewrite (ss_res_moments a b x y Hlen).
  rewrite (ss_res_moments c0 c1 x y Hlen).
  rewrite sum_map_sq_affine.
  fold n. fold sxx. fold sxy.
  unfold c0, c1, d. field. exact Hd.
Qed.

(** With equal lengths and a nonzero determinant, the same quantity is
    the sum of squares of the fitted values about the mean of y. *)
Lemma explained_sum_of_squares (x y : list R) :
  length x = length y -> detXX x <> 0 ->
  let n := len x in
  let sxx := sum (map (fun xi => xi ^ 2) x) in
  let sxy := sum (map (fun p => fst p * snd p) (zip x y)) in
  let d := n * sxx - sum x * sum x in
  let c0 := sxx / d * sum y + - sum x / d * sxy in
  let c1 := - sum x / d * sum y + n / d * sxy in
  sum (map (fun yh => (yh - sum y / n) ^ 2)
         (map (fun xi => c0 + c1 * xi) x))
  = c1 ^ 2 * d / n.
Proof.
  intros Hlen Hd n sxx sxy d c0 c1.
  assert (Hn : n <> 0).
  { intros Hz. apply Hd. fold n. rewrite Hz.
    assert (Hx : x = []).
    { destruct x; [reflexivity |]. unfold n, len in Hz.
      cbn [length] in Hz. rewrite S_INR in Hz.
      pose proof (pos_INR (length x)). lra. }
    rewrite Hx, sum_nil. ring. }
  rewrite map_map.
  rewrite (map_ext _ (fun xi => ((c0 - sum y / n) + c1 * xi) ^ 2))
    by (intros xi; ring).
  rewrite sum_map_sq_affine. fold n. fold sxx.
  unfold c0, c1, d. field. split; assumption.
Qed.

(** What [ols_matrix] needs to return: a nonzero determinant and three
    or more observations. *)
Lemma ols_matrix_accepts (x y : list R) (r : regression) :
  ols_matrix x y = Ok r -> detXX x <> 0 /\ (3 <= length x)%nat.
Proof.
  intros Hr.
  destruct (Req_dec_T (detXX x) 0) as [Hd | Hd].
  - rewrite (ols_matrix_singular x y Hd) in Hr. discriminate Hr.
  - split; [exact Hd |].
    destruct (le_lt_dec 2 (length x)) as [H2 | H2].
    + destruct (Nat.eq_dec (length x) 2) as [He | He]; [| lia].
      rewrite (ols_matrix_two x y Hd He) in Hr. discriminate Hr.
    + contradiction Hd. apply det_short. exact H2.
Qed.

(** *** The default data of the script *)

Lemma default_moments :
  len default_x = 5 /\ sum default_x = 28.5 /\
  sum (map (fun xi => xi ^ 2) default_x) = 216.25 /\
  sum default_y = 35 /\
  sum (map (fun p => fst p * snd p) (zip default_x default_y)) = 207.
Proof.
  unfold len, zip, default_x, default_y.
  cbn [map combine length fst snd]. rewrite !sum_cons, !sum_nil.
  simpl INR. repeat split; lra.
Qed.

Lemma ols_matrix_default :
  exists r, ols_matrix default_x default_y = Ok r /\
    det r = 269 /\ b0 r = 6677 / 1076 /\ b1 r = 75 / 538.
Proof.
  destruct default_moments as (Hn & Hx & Hxx & Hy & Hxy).
  eexists. split.
  - apply ols_matrix_returns.
    + rewrite Hn, Hx, Hxx. lra.
    + simpl. lia.
  - cbn [det b0 b1 m00 m01 m10 m11].
    rewrite Hn, Hx, Hxx, Hy, Hxy.
    replace (5 * 216.25 - 28.5 * 28.5) with 269 by lra.
    repeat split; lra.
Qed.

(** *** The claims on [ols_matrix] *)









(** C6: every result [ols_matrix] returns satisfies
    ss_tot = ss_reg + ss_res, and r_squared = 1 - ss_res/ss_tot when
    ss_tot > 0 and r_squared = 0 when ss_tot = 0 (ss_tot is never
    negative, so these are the two cases). *)
Theorem C6_sum_of_squares_decomposition (x y : list R) (r : regression) :
  ols_matrix x y = Ok r ->
  ss_tot r = ss_reg r + ss_res r /\
  0 <= ss_tot r /\
  (0 < ss_tot r -> r_squared r = 1 - ss_res r / ss_tot r) /\
  (ss_tot r = 0 -> r_squared r = 0).
Proof.
  intros Hr.
  destruct (ols_matrix_accepts x y r Hr) as [Hd Hn].
  rewrite (ols_matrix_returns x y Hd Hn) in Hr.
  injection Hr as <-. cbn [ss_tot ss_reg ss_res r_squared].
  split; [ring |]. split.
  - apply (sum_squares_nonneg (fun yi => yi - _)).
  - split; intros Ht.
    + destruct (Rgt_dec _ 0) as [_ | Hc]; [reflexivity | contradiction].
    + destruct (Rgt_dec _ 0) as [Hc | _]; [lra | reflexivity].
Qed.

Lemma C6_sum_of_squares_decomposition_witness :
  exists r, ols_matrix default_x default_y = Ok r /\
    ss_tot r = ss_reg r + ss_res r /\
    0 <= ss_tot r /\
    (0 < ss_tot r -> r_squared r = 1 - ss_res r / ss_tot r) /\
    (ss_tot r = 0 -> r_squared r = 0).
Proof.
  destruct ols_matrix_default as (r & Hr & _).
  exists r. split; [exact Hr |].
  exact (C6_sum_of_squares_decomposition default_x default_y r Hr).
Defined.

(** C10: for equal-length inputs of three or more observations with a
    nonzero determinant, [ols_matrix] returns a result with
    0 <= ss_res <= ss_tot, hence ss_reg >= 0 and r_squared in [0, 1];
    the reason is that (b0, b1) minimises the residual sum of squares
    over all lines a + b*x, the constant-mean fit (a = mean of y, b = 0)
    among them.  Nothing in the result is clamped: ss_reg is
    ss_tot - ss_res, which is the sum of squares of the fitted values
    about the mean of y. *)
Theorem C10_residual_bounded_by_total (x y : list R) :
  length x = length y -> (3 <= length x)%nat -> detXX x <> 0 ->
  exists r, ols_matrix x y = Ok r /\
    (forall a b : R,
       ss_res r <= sum (map (fun e => e ^ 2)
                          (map (fun p => fst p - snd p)
                             (zip y (map (fun xi => a + b * xi) x))))) /\
    0 <= ss_res r <= ss_tot r /\
    ss_reg r = ss_tot r - ss_res r /\
    ss_reg r = sum (map (fun yh => (yh - sum y / len x) ^ 2) (y_hat r)) /\
    0 <= ss_reg r /\
    0 <= r_squared r <= 1.
Proof.
  intros Hlen Hn Hd.
  pose proof (ss_reg_closed_form x y Hlen Hd) as Hreg.
  pose proof (explained_sum_of_squares x y Hlen Hd) as Hexp.
  cbv zeta in Hreg, Hexp.
  assert (Hnpos : 0 < len x).
  { unfold len. apply lt_0_INR. lia. }
  assert (Hdpos : 0 < detXX x).
  { pose proof (det_nonneg x). lra. }
  eexists. split; [apply ols_matrix_returns; assumption |].
  cbn [ss_res ss_tot ss_reg r_squared y_hat m00 m01 m10 m11].
  match goal with
  | |- _ /\ (0 <= ?ssr <= ?sst) /\ _ =>
      assert (Hres : 0 <= ssr)
        by (apply (sum_squares_nonneg (fun e => e)));
      assert (Hle : ssr <= sst)
  end.
  { match type of Hreg with
    | _ = ?g => assert (Hg : 0 <= g)
    end.
    { apply Rmult_le_pos; [| left; apply Rinv_0_lt_compat; exact Hnpos].
      apply Rmult_le_pos; [apply pow2_ge_0 | lra]. }
    lra. }
  split.
  { intros a b.
    pose proof (least_squares_gap a b x y Hlen Hd) as Hgap.
    cbv zeta in Hgap.
    match type of Hgap with
    | _ = ?g => assert (Hg : 0 <= g)
    end.
    { apply (sum_squares_nonneg (fun xi => _ + _ * xi)). }
    lra. }
  split; [split; assumption |].
  split; [reflexivity |].
  split; [rewrite Hexp; exact Hreg |].
  split; [lra |].
  destruct (Rgt_dec _ 0) as [Ht | Ht]; [| lra].
  match goal with
  | |- 0 <= 1 - ?q <= 1 => assert (Hq : 0 <= q <= 1); [| lra]
  end.
  split.
  - apply Rmult_le_pos; [exact Hres |].
    left. apply Rinv_0_lt_compat. exact Ht.
  - apply Rmult_le_reg_r with (r := sum (map (fun yi => (yi - sum y / len x) ^ 2) y));
      [exact Ht |].
    unfold Rdiv. rewrite Rmult_assoc, Rinv_l by lra. lra.
Qed.

Lemma C10_residual_bounded_by_total_witness :
  exists r, ols_matrix default_x default_y = Ok r /\
    0 <= ss_res r <= ss_tot r /\ 0 <= ss_reg r /\ 0 <= r_squared r <= 1.
Proof.
  destruct (C10_residual_bounded_by_total default_x default_y)
    as (r & Hr & _ & Hb & _ & _ & Hg & Hq).
  - reflexivity.
  - simpl. lia.
  - destruct default_moments as (Hn & Hx & Hxx & _).
    rewrite Hn, Hx, Hxx. lra.
  - exists r. repeat split; try assumption; try apply Hb; try apply Hq.
Defined.

End LeastSquaresFacts.

(** ** Sampling *)

Module SamplingFacts.
Import PyFacts Sampling.

(** *** The pool loop of the small generator meets the contract *)

Lemma list_set_length (j v : nat) (l : list nat) :
  length (list_set j v l) = length l.
Proof.
  revert j; induction l as [|a l IH]; intros [|j]; simpl; auto.
Qed.

Lemma swap_remove_length (j : nat) (pool : list nat) :
  length (swap_remove j pool) = (length pool - 1)%nat.
Proof.
  unfold swap_remove. rewrite length_firstn, list_set_length. lia.
Qed.

Lemma swap_remove_perm (pool : list nat) :
  forall j, (j < length pool)%nat ->
  Permutation (nth j pool O :: swap_remove j pool) pool.
Proof.
  induction pool as [|a l IH]; intros j Hj; [simpl in Hj; lia |].
  destruct l as [|b l].
  - assert (j = 0%nat) by (simpl in Hj; lia). subst j.
    unfold swap_remove. simpl. apply Permutation_refl.
  - assert (Hlast : last (a :: b :: l) O = last (b :: l) O) by reflexivity.
    destruct j as [|j].
    + unfold swap_remove. rewrite Hlast.
      change (length (a :: b :: l) - 1)%nat with (S (length l)).
      cbn [list_set nth firstn].
      apply perm_skip.
      assert (Hrl : firstn (length l) (b :: l) = removelast (b :: l)).
      { rewrite removelast_firstn_len. reflexivity. }
      rewrite Hrl.
      rewrite (app_removelast_last O (l := b :: l)) at 3 by discriminate.
      apply Permutation_cons_append.
    + unfold swap_remove. rewrite Hlast.
      change (length (a :: b :: l) - 1)%nat with (S (length l)).
      cbn [list_set nth firstn].
      eapply perm_trans; [apply perm_swap |].
      apply perm_skip.
      specialize (IH j). unfold swap_remove in IH.
      change (length (b :: l) - 1)%nat with (length l - 0)%nat in IH.
      rewrite Nat.sub_0_r in IH.
      apply IH. simpl in Hj |- *. lia.
Qed.

Lemma lcg_randbelow_range (m : nat) (s : Z) :
  (0 < m)%nat -> (fst (lcg_randbelow m s) < m)%nat.
Proof.
  intros Hm. unfold lcg_randbelow. cbn [fst].
  pose proof (Z.mod_pos_bound (lcg_next s) (Z.of_nat m)) as Hb. lia.
Qed.

Lemma sample_pool_spec (k : nat) :
  forall (pool : list nat) (s : Z),
    (k <= length pool)%nat -> NoDup pool ->
    length (fst (sample_pool k pool s)) = k /\
    NoDup (fst (sample_pool k pool s)) /\
    (forall v, In v (fst (sample_pool k pool s)) -> In v pool).
Proof.
  induction k as [|k IH]; intros pool s Hk Hnd.
  - simpl. repeat split; [constructor | intros v []].
  - cbn [sample_pool].
    pose proof (lcg_randbelow_range (length pool) s ltac:(lia)) as Hj.
    destruct (lcg_randbelow (length pool) s) as [j s1]. cbn [fst] in Hj.
    pose proof (swap_remove_perm pool j Hj) as Hperm.
    assert (Hnd' : NoDup (nth j pool O :: swap_remove j pool)).
    { eapply Permutation_NoDup; [apply Permutation_sym; exact Hperm | exact Hnd]. }
    inversion Hnd' as [| ? ? Hnotin Hnd'']; subst.
    destruct (IH (swap_remove j pool) s1) as (Hlen & Hnr & Hin).
    { rewrite swap_remove_length. lia. }
    { exact Hnd''. }
    destruct (sample_pool k (swap_remove j pool) s1) as [rest s2].
    cbn [fst] in *. repeat split.
    + simpl. rewrite Hlen. reflexivity.
    + constructor; [| exact Hnr].
      intros Hc. apply Hnotin. apply Hin. exact Hc.
    + intros v [<- | Hv].
      * apply nth_In. exact Hj.
      * eapply Permutation_in; [exact Hperm |]. right. apply Hin. exact Hv.
Qed.

Lemma lcg_sample_contract : sample_contract lcg_random.
Proof.
  intros n k st Hk. cbn [choose_indices lcg_random].
  destruct (sample_pool_spec k (seq 0 n) st) as (Hlen & Hnd & Hin).
  - rewrite length_seq. exact Hk.
  - apply seq_NoDup.
  - repeat split; [exact Hlen | exact Hnd |].
    apply Forall_forall. intros v Hv.
    apply Hin in Hv. apply in_seq in Hv. lia.
Qed.

(** *** Population and sample *)

Section Draws.

Context {M : RandomModule}.

Lemma py_max_clamp (g : R) :
  0 <= py_max 0 g /\ (g < 0 -> py_max 0 g = 0) /\
  (0 <= g -> py_max 0 g = g).
Proof.
  unfold py_max. destruct (Rgt_dec g 0); repeat split; intros; lra.
Qed.

Lemma gauss_draws_length (mean std_dev : R) (k : nat) :
  forall st, length (fst (gauss_draws mean std_dev k st)) = k.
Proof.
  induction k as [|k IH]; intros st; cbn [gauss_draws].
  - reflexivity.
  - destruct (random_gauss mean std_dev st) as [g st1].
    specialize (IH st1).
    destruct (gauss_draws mean std_dev k st1) as [rest st2].
    cbn [fst length] in *. rewrite IH. reflexivity.
Qed.

Lemma gauss_draws_nonneg (mean std_dev : R) (k : nat) :
  forall st, Forall (fun v => 0 <= v) (fst (gauss_draws mean std_dev k st)).
Proof.
  induction k as [|k IH]; intros st; cbn [gauss_draws].
  - constructor.
  - destruct (random_gauss mean std_dev st) as [g st1].
    specialize (IH st1).
    destruct (gauss_draws mean std_dev k st1) as [rest st2].
    cbn [fst] in *. constructor; [apply py_max_clamp | exact IH].
Qed.

(** The population is the list of the draws, each passed through
    [max(0, .)]; the generator ends in the same state. *)
Lemma gauss_draws_clamp (mean std_dev : R) (k : nat) :
  forall st,
    gauss_draws mean std_dev k st
    = (map (py_max 0) (fst (gauss_calls mean std_dev k st)),
       snd (gauss_calls mean std_dev k st)).
Proof.
  induction k as [|k IH]; intros st; cbn [gauss_draws gauss_calls].
  - reflexivity.
  - destruct (random_gauss mean std_dev st) as [g st1].
    rewrite (IH st1).
    destruct (gauss_calls mean std_dev k st1) as [rest st2].
    reflexivity.
Qed.

(** C9: for every mean, std_dev, n and seed (and generator state),
    [generate_population] returns as many values as [range(n)] has
    elements -- exactly n, for n a count -- and every element is
    non-negative: the values are the draws of [random.gauss], a negative
    draw replaced by 0 and any other draw kept. *)
Theorem C9_population_size_and_sign
    (mean std_dev : R) (n : Z) (seed : option Z) (st : rng) :
  length (fst (generate_population mean std_dev n seed st)) = Z.to_nat n /\
  ((0 <= n)%Z ->
   Z.of_nat (length (fst (generate_population mean std_dev n seed st)))
   = n) /\
  Forall (fun v => 0 <= v)
    (fst (generate_population mean std_dev n seed st)) /\
  fst (generate_population mean std_dev n seed st)
  = map (py_max 0)
      (fst (gauss_calls mean std_dev (Z.to_nat n) (reseed seed st))) /\
  (forall g, g < 0 -> py_max 0 g = 0) /\
  (forall g, 0 <= g -> py_max 0 g = g).
Proof.
  unfold generate_population. rewrite gauss_draws_length.
  repeat split.
  - intros Hn. lia.
  - apply gauss_draws_nonneg.
  - rewrite gauss_draws_clamp. reflexivity.
  - intros g Hg. apply py_max_clamp. exact Hg.
  - intros g Hg. apply py_max_clamp. exact Hg.
Qed.

Lemma random_sample_rejects (lineno : nat) (population : list R) (k : Z)
    (st : rng) :
  (k < 0 \/ Z.of_nat (length population) < k)%Z ->
  random_sample lineno population k st = Raise (ValueError lineno).
Proof.
  intros Hk. unfold random_sample.
  destruct (Z.ltb_spec k 0); [reflexivity |].
  destruct (Z.ltb_spec (Z.of_nat (length population)) k);
    [reflexivity | lia].
Qed.

(** A negative [sample_size] is not clamped: [random.sample] refuses
    it. *)
Lemma draw_sample_negative (population : list R) (sample_size : Z)
    (seed : option Z) (st : rng) :
  (sample_size < 0)%Z ->
  draw_sample population sample_size seed st = Raise (ValueError 32).
Proof.
  intros Hs. unfold draw_sample. apply random_sample_rejects. lia.
Qed.


End Draws.

Lemma C9_population_size_and_sign_witness :
  Z.of_nat (length (fst (generate_population (M := lcg_random)
                           100 25 3 (Some 42%Z) 0%Z))) = 3%Z.
Proof.
  apply (C9_population_size_and_sign (M := lcg_random)
           100 25 3 (Some 42%Z) 0%Z).
  lia.
Defined.


(** *** Required sample size *)

Lemma Rdiv_le_cross (a b c d : R) :
  0 < b -> 0 < d -> a * d <= c * b -> a / b <= c / d.
Proof.
  intros Hb Hd H.
  replace (a / b) with (a * d * (/ b * / d)) by (field; lra).
  replace (c / d) with (c * b * (/ b * / d)) by (field; lra).
  apply Rmult_le_compat_r; [| exact H].
  left. apply Rmult_lt_0_compat; apply Rinv_0_lt_compat; assumption.
Qed.

Lemma Rdiv_lt_cross (a b c d : R) :
  0 < b -> 0 < d -> a * d < c * b -> a / b < c / d.
Proof.
  intros Hb Hd H.
  replace (a / b) with (a * d * (/ b * / d)) by (field; lra).
  replace (c / d) with (c * b * (/ b * / d)) by (field; lra).
  apply Rmult_lt_compat_r; [| exact H].
  apply Rmult_lt_0_compat; apply Rinv_0_lt_compat; assumption.
Qed.

Lemma sample_size_infinite_value (z cv precision : R) :
  precision <> 0 ->
  sample_size_infinite z cv precision = Ok ((z * cv / precision) ^ 2).
Proof.
  intros Hp. unfold sample_size_infinite.
  rewrite div_ok by exact Hp. reflexivity.
Qed.

Lemma sample_size_finite_value (n0 N : R) :
  0 <= n0 -> 0 < N ->
  sample_size_finite n0 N = Ok (n0 * N / (n0 + N)).
Proof.
  intros Hn HN. unfold sample_size_finite. apply div_ok. lra.
Qed.

(** The finite-population correction never exceeds [n0]. *)
Lemma finite_correction_le (n0 N : R) :
  0 <= n0 -> 0 < N -> n0 * N / (n0 + N) <= n0.
Proof.
  intros Hn HN.
  replace n0 with (n0 / 1) at 3 by field.
  apply Rdiv_le_cross; nra.
Qed.

(** The finite-population correction grows with the population. *)
Lemma finite_correction_monotone (n0 N1 N2 : R) :
  0 <= n0 -> 0 < N1 -> N1 <= N2 ->
  n0 * N1 / (n0 + N1) <= n0 * N2 / (n0 + N2).
Proof.
  intros Hn H1 H12. apply Rdiv_le_cross; nra.
Qed.

Lemma finite_correction_strict (n0 N1 N2 : R) :
  0 < n0 -> 0 < N1 -> N1 < N2 ->
  n0 * N1 / (n0 + N1) < n0 * N2 / (n0 + N2).
Proof.
  intros Hn H1 H12.
  assert (Hsq : n0 * n0 * N1 < n0 * n0 * N2).
  { apply Rmult_lt_compat_l; [nra | exact H12]. }
  apply Rdiv_lt_cross; nra.
Qed.

Section SampleSize.

Variable normal_quantile : R -> R.

Lemma z_score_90 : z_score normal_quantile 90 = Ok 1.645.
Proof.
  unfold z_score, z_table. cbn [dict_get].
  destruct (Req_dec_T 90 80); [lra |].
  destruct (Req_dec_T 90 85); [lra |].
  destruct (Req_dec_T 90 90); [reflexivity | lra].
Qed.

(** Outside the table [z_score] needs 0 < 0.5 + c/200 < 1. *)
Lemma z_score_returns (confidence : R) :
  -100 < confidence < 100 ->
  exists z, z_score normal_quantile confidence = Ok z.
Proof.
  intros Hc. unfold z_score.
  destruct (dict_get confidence z_table) as [z |].
  - exists z. reflexivity.
  - unfold inv_cdf.
    destruct (Rle_dec (0.5 + confidence / 200) 0); [lra |].
    destruct (Rge_dec (0.5 + confidence / 200) 1); [lra |].
    eexists. reflexivity.
Qed.

Lemma z_score_100 :
  z_score normal_quantile 100 = Raise (StatisticsError 63).
Proof.
  unfold z_score, z_table. cbn [dict_get].
  repeat (destruct (Req_dec_T 100 _); [lra |]).
  unfold inv_cdf.
  destruct (Rle_dec (0.5 + 100 / 200) 0); [reflexivity |].
  destruct (Rge_dec (0.5 + 100 / 200) 1); [reflexivity | lra].
Qed.


End SampleSize.


End SamplingFacts.

(** * Further properties of the scripts *)

(** ** Descriptive statistics *)

Module DescriptiveStatsMore.
Import PyFacts DescriptiveStats DescriptiveStatsFacts.

Lemma sum_map_minus (m : R) (l : list R) :
  sum (map (fun x => x - m) l) = sum l - INR (length l) * m.
Proof.
  induction l as [|h t IH].
  - cbn [map length]. rewrite sum_nil. simpl INR. ring.
  - cbn [map length]. rewrite !sum_cons, S_INR, IH. ring.
Qed.

Lemma sum_map_plus (c : R) (l : list R) :
  sum (map (fun x => x + c) l) = sum l + INR (length l) * c.
Proof.
  induction l as [|h t IH].
  - cbn [map length]. rewrite sum_nil. simpl INR. ring.
  - cbn [map length]. rewrite !sum_cons, S_INR, IH. ring.
Qed.

Lemma sum_map_mult (k : R) (l : list R) :
  sum (map (fun x => k * x) l) = k * sum l.
Proof.
  induction l as [|h t IH].
  - cbn [map]. rewrite sum_nil. ring.
  - cbn [map]. rewrite !sum_cons, IH. ring.
Qed.

Lemma sum_permutation (l l' : list R) :
  Permutation l l' -> sum l = sum l'.
Proof.
  induction 1 as [| a l l' _ IH | a b l | l l' l'' _ IH1 _ IH2].
  - reflexivity.
  - rewrite !sum_cons, IH. reflexivity.
  - rewrite !sum_cons. ring.
  - rewrite IH1. exact IH2.
Qed.

(** [descriptive_stats] returns only on two or more observations. *)
Lemma descriptive_stats_accepts (data : list R) (r : stats) :
  descriptive_stats data = Ok r -> (2 <= length data)%nat.
Proof.
  intros Hr. destruct data as [|v [|w t]].
  - rewrite descriptive_stats_empty in Hr. discriminate Hr.
  - rewrite descriptive_stats_single in Hr. discriminate Hr.
  - simpl. lia.
Qed.

Lemma count_positive (data : list R) :
  (2 <= length data)%nat -> 2 <= INR (length data).
Proof.
  intros Hn. replace 2 with (INR 2) by (simpl; lra). apply le_INR. exact Hn.
Qed.

Lemma Ok_inj {A : Type} (a b : A) : Ok a = Ok b -> a = b.
Proof. intros H. injection H. auto. Qed.

Ltac invert_stats H :=
  let Hn := fresh "Hn" in
  pose proof (descriptive_stats_accepts _ _ H) as Hn;
  rewrite (descriptive_stats_returns _ Hn) in H;
  cbv zeta in H; apply Ok_inj in H; subst;
  cbv beta iota delta [n mean variance std_dev cv deviations sq_deviations].







Ltac compare_stats data data' Hr Hn Hn' :=
  let H1 := fresh "H1" in
  let H2 := fresh "H2" in
  pose proof (descriptive_stats_returns data Hn) as H1;
  pose proof (descriptive_stats_returns data' Hn') as H2;
  cbv zeta in H1, H2;
  rewrite H1 in Hr; apply Ok_inj in Hr; subst;
  eexists; split; [exact H2 |];
  cbv beta iota delta [n mean variance std_dev cv deviations sq_deviations];
  clear H1 H2.



Lemma sum_map_sq_scale (k : R) (l : list R) :
  sum (map (fun d => d ^ 2) (map (fun d => k * d) l))
  = k ^ 2 * sum (map (fun d => d ^ 2) l).
Proof.
  induction l as [|h t IH].
  - cbn [map]. rewrite sum_nil. ring.
  - cbn [map]. rewrite !sum_cons, IH. ring.
Qed.







Lemma cv_sign_aux (data : list R) (r : stats) (c : R) :
  descriptive_stats data = Ok r -> cv r = Fin c ->
  c = std_dev r / mean r /\ mean r <> 0 /\ 0 <= std_dev r.
Proof.
  intros Hr. invert_stats Hr.
  destruct (Rneq_dec _ 0) as [Hm | Hm]; intros Hc.
  - injection Hc as <-. repeat split; [exact Hm | apply sqrt_pos].
  - discriminate Hc.
Qed.



End DescriptiveStatsMore.

(** ** Regression *)

Module LeastSquaresMore.
Import PyFacts LeastSquares LeastSquaresFacts.

Local Notation "'detXX' x" :=
  (len x * sum (map (fun xi => xi ^ 2) x) - sum x * sum x)
  (at level 10, x at level 9, only parsing).

Lemma Ok_injective {A : Type} (a b : A) : Ok a = Ok b -> a = b.
Proof. intros H. injection H. auto. Qed.

(** A returned result is the record of [ols_matrix_returns]. *)
Ltac invert_ols H :=
  let Hd := fresh "Hd" in
  let Hn := fresh "Hn" in
  destruct (ols_matrix_accepts _ _ _ H) as [Hd Hn];
  rewrite (ols_matrix_returns _ _ Hd Hn) in H;
  cbv zeta in H; apply Ok_injective in H; subst;
  cbv beta iota delta [b0 b1 se_b0 se_b1 t_b0 t_b1 r_squared ss_reg ss_res
                         ss_tot mse y_hat residuals xtx xty xtx_inv det
                         m00 m01 m10 m11 v0 v1].

Lemma count_three (x : list R) : (3 <= length x)%nat -> 3 <= len x.
Proof.
  intros Hn. unfold len. replace 3 with (INR 3) by (simpl; lra).
  apply le_INR. exact Hn.
Qed.

Lemma sum_sq_positive (x : list R) :
  detXX x <> 0 -> 0 < sum (map (fun xi => xi ^ 2) x).
Proof.
  intros Hd.
  pose proof (sum_squares_nonneg (fun xi => xi) x) as Hs.
  pose proof (det_nonneg x) as Hdn.
  destruct (Req_dec_T (sum (map (fun xi => xi ^ 2) x)) 0) as [Hz | Hz]; [| lra].
  exfalso. apply Hd. rewrite Hz in Hdn |- *.
  pose proof (pow2_ge_0 (sum x)). nra.
Qed.


Lemma returned_inverse_is_inverse_aux (x y : list R) (r : regression) :
  ols_matrix x y = Ok r ->
  0 < m00 (xtx_inv r) /\ 0 < m11 (xtx_inv r).
Proof.
  intros Hr. invert_ols Hr.
  pose proof (det_nonneg x) as Hdn.
  pose proof (count_three x Hn) as H3.
  pose proof (sum_sq_positive x Hd) as Hsxx.
  assert (Hinv : 0 < / (detXX x)) by (apply Rinv_0_lt_compat; lra).
  split.
  - apply Rmult_lt_0_compat; assumption.
  - apply Rmult_lt_0_compat; [lra | assumption].
Qed.



(** How the fields of a returned result depend on one another. *)
Lemma returned_fields (x y : list R) (r : regression) :
  ols_matrix x y = Ok r ->
  3 <= len x /\ 0 <= ss_res r /\
  mse r = ss_res r / (len x - 2) /\
  se_b0 r = sqrt (mse r * m00 (xtx_inv r)) /\
  se_b1 r = sqrt (mse r * m11 (xtx_inv r)) /\
  t_b0 r = (if Rgt_dec (se_b0 r) 0 then Fin (b0 r / se_b0 r) else PInf) /\
  t_b1 r = (if Rgt_dec (se_b1 r) 0 then Fin (b1 r / se_b1 r) else PInf).
Proof.
  intros Hr. invert_ols Hr.
  split; [apply count_three; exact Hn |].
  split; [apply (sum_squares_nonneg (fun e => e)) |].
  repeat split.
Qed.

Lemma sqrt_product_zero (ms i : R) :
  0 <= ms -> 0 < i -> (sqrt (ms * i) = 0 <-> ms = 0).
Proof.
  intros Hms Hi. split.
  - intros Hs. apply sqrt_eq_0 in Hs; [| nra].
    apply Rmult_integral in Hs. destruct Hs; [assumption | lra].
  - intros ->. rewrite Rmult_0_l. apply sqrt_0.
Qed.

Lemma t_cases (b se : R) :
  0 <= se ->
  ((if Rgt_dec se 0 then Fin (b / se) else PInf) = PInf <-> se = 0) /\
  (forall t, (if Rgt_dec se 0 then Fin (b / se) else PInf) = Fin t ->
     0 < se /\ t = b / se).
Proof.
  intros Hse. destruct (Rgt_dec se 0) as [G | G]; split.
  - split; [discriminate | lra].
  - intros t Ht. injection Ht as <-. split; [lra | reflexivity].
  - split; [lra | reflexivity].
  - intros t Ht. discriminate Ht.
Qed.

Lemma standard_error_facts (x y : list R) (r : regression) :
  ols_matrix x y = Ok r ->
  0 <= mse r /\ 0 <= se_b0 r /\ 0 <= se_b1 r /\
  se_b0 r * se_b0 r = mse r * m00 (xtx_inv r) /\
  se_b1 r * se_b1 r = mse r * m11 (xtx_inv r) /\
  (t_b0 r = PInf <-> ss_res r = 0) /\
  (t_b1 r = PInf <-> ss_res r = 0) /\
  (forall t, t_b0 r = Fin t -> 0 < se_b0 r /\ t = b0 r / se_b0 r) /\
  (forall t, t_b1 r = Fin t -> 0 < se_b1 r /\ t = b1 r / se_b1 r).
Proof.
  intros Hr.
  destruct (returned_fields x y r Hr) as (H3 & Hres & Hmse & Hs0 & Hs1 & Ht0 & Ht1).
  destruct (returned_inverse_is_inverse_aux x y r Hr) as (Hi0 & Hi1).
  assert (Hms : 0 <= mse r).
  { rewrite Hmse. apply Rmult_le_pos; [exact Hres |].
    left. apply Rinv_0_lt_compat. lra. }
  assert (Hzero : mse r = 0 <-> ss_res r = 0).
  { rewrite Hmse. split.
    - intros Hz. unfold Rdiv in Hz. apply Rmult_integral in Hz.
      destruct Hz as [Hz | Hz]; [exact Hz |].
      assert (0 < / (len x - 2)) by (apply Rinv_0_lt_compat; lra). lra.
    - intros ->. unfold Rdiv. ring. }
  pose proof (sqrt_product_zero _ _ Hms Hi0) as Hz0.
  pose proof (sqrt_product_zero _ _ Hms Hi1) as Hz1.
  rewrite <- Hs0 in Hz0. rewrite <- Hs1 in Hz1.
  assert (Hp0 : 0 <= se_b0 r) by (rewrite Hs0; apply sqrt_pos).
  assert (Hp1 : 0 <= se_b1 r) by (rewrite Hs1; apply sqrt_pos).
  split; [exact Hms |]. split; [exact Hp0 |]. split; [exact Hp1 |].
  split; [rewrite Hs0; apply sqrt_sqrt; nra |].
  split; [rewrite Hs1; apply sqrt_sqrt; nra |].
  rewrite Ht0, Ht1.
  destruct (t_cases (b0 r) (se_b0 r) Hp0) as [Hinf0 Hfin0].
  destruct (t_cases (b1 r) (se_b1 r) Hp1) as [Hinf1 Hfin1].
  split; [rewrite Hinf0, Hz0; exact Hzero |].
  split; [rewrite Hinf1, Hz1; exact Hzero |].
  split; assumption.
Qed.



Lemma det_nonzero_count (x : list R) : detXX x <> 0 -> len x <> 0.
Proof.
  intros Hd Hz. apply Hd. rewrite Hz.
  assert (Hx : x = []).
  { destruct x; [reflexivity |]. unfold len in Hz.
    cbn [length] in Hz. rewrite S_INR in Hz.
    pose proof (pos_INR (length x)). lra. }
  rewrite Hx, sum_nil. ring.
Qed.

Lemma residual_moments (c0 c1 : R) (x y : list R) :
  length x = length y ->
  sum (map (fun p => fst p - snd p)
         (zip y (map (fun xi => c0 + c1 * xi) x)))
  = sum y - len x * c0 - c1 * sum x /\
  sum (map (fun p => fst p * snd p)
         (zip x (map (fun p => fst p - snd p)
                   (zip y (map (fun xi => c0 + c1 * xi) x)))))
  = sum (map (fun p => fst p * snd p) (zip x y)) - c0 * sum x
    - c1 * sum (map (fun xi => xi ^ 2) x).
Proof.
  unfold zip, len. revert y.
  induction x as [|a x IH]; intros [|b y] Hlen; try discriminate Hlen.
  - cbn [map combine length]. rewrite !sum_nil. simpl INR. split; ring.
  - injection Hlen as Hlen. destruct (IH y Hlen) as [IH1 IH2].
    cbn [map combine length fst snd]. rewrite !sum_cons, S_INR, IH1, IH2.
    split; ring.
Qed.

Lemma sum_map_affine (c0 c1 : R) (x : list R) :
  sum (map (fun xi => c0 + c1 * xi) x) = len x * c0 + c1 * sum x.
Proof.
  unfold len. induction x as [|a x IH].
  - cbn [map length]. rewrite !sum_nil. simpl INR. ring.
  - cbn [map length]. rewrite !sum_cons, S_INR, IH. ring.
Qed.

(** The normal equations, on the residuals. *)
Lemma fit_normal_equations (x y : list R) :
  length x = length y -> detXX x <> 0 ->
  let n := len x in
  let sxx := sum (map (fun xi => xi ^ 2) x) in
  let sxy := sum (map (fun p => fst p * snd p) (zip x y)) in
  let d := n * sxx - sum x * sum x in
  let c0 := sxx / d * sum y + - sum x / d * sxy in
  let c1 := - sum x / d * sum y + n / d * sxy in
  let res := map (fun p => fst p - snd p)
               (zip y (map (fun xi => c0 + c1 * xi) x)) in
  sum res = 0 /\
  sum (map (fun p => fst p * snd p) (zip x res)) = 0 /\
  sum (map (fun xi => c0 + c1 * xi) x) = sum y /\
  c0 + c1 * (sum x / n) = sum y / n.
Proof.
  intros Hlen Hd n sxx sxy d c0 c1 res.
  pose proof (det_nonzero_count x Hd) as Hn. fold n in Hn.
  destruct (residual_moments c0 c1 x y Hlen) as [H1 H2].
  unfold res. rewrite H1, H2, sum_map_affine.
  fold n. fold sxx. fold sxy.
  unfold c0, c1, d. repeat split; field; try split; assumption.
Qed.



Lemma returned_fit (x y : list R) (r : regression) :
  ols_matrix x y = Ok r ->
  detXX x <> 0 /\ (3 <= length x)%nat /\
  det r = detXX x /\
  b0 r = (sum (map (fun xi => xi ^ 2) x) * sum y
          - sum x * sum (map (fun p => fst p * snd p) (zip x y))) / det r /\
  b1 r = (len x * sum (map (fun p => fst p * snd p) (zip x y))
          - sum x * sum y) / det r /\
  y_hat r = map (fun xi => b0 r + b1 r * xi) x /\
  residuals r = map (fun p => fst p - snd p) (zip y (y_hat r)) /\
  ss_res r = sum (map (fun e => e ^ 2) (residuals r)) /\
  ss_tot r = sum (map (fun yi => (yi - sum y / len x) ^ 2) y) /\
  ss_reg r = ss_tot r - ss_res r /\
  r_squared r = (if Rgt_dec (ss_tot r) 0 then 1 - ss_res r / ss_tot r else 0).
Proof.
  intros Hr. invert_ols Hr.
  split; [exact Hd |]. split; [exact Hn |].
  repeat split; field; exact Hd.
Qed.

Lemma returned_ss_reg (x y : list R) (r : regression) :
  length x = length y -> ols_matrix x y = Ok r ->
  ss_tot r - ss_res r = b1 r ^ 2 * det r / len x.
Proof.
  intros Hlen Hr. invert_ols Hr.
  exact (ss_reg_closed_form x y Hlen Hd).
Qed.

Lemma sum_xy_affine (a b : R) (x : list R) :
  sum (map (fun p => fst p * snd p) (zip x (map (fun xi => a + b * xi) x)))
  = a * sum x + b * sum (map (fun xi => xi ^ 2) x).
Proof.
  unfold zip. induction x as [|h t IH].
  - cbn [map combine]. rewrite !sum_nil. ring.
  - cbn [map combine fst snd]. rewrite !sum_cons, IH. ring.
Qed.

Lemma zip_same_residual (l : list R) (e : R) :
  In e (map (fun p => fst p - snd p) (zip l l)) -> e = 0.
Proof.
  unfold zip. induction l as [|h t IH]; cbn [map combine fst snd].
  - intros [].
  - intros [<- | He]; [ring | exact (IH He)].
Qed.

Lemma sum_sq_all_zero (l : list R) :
  (forall e, In e l -> e = 0) -> sum (map (fun e => e ^ 2) l) = 0.
Proof.
  induction l as [|h t IH]; intros Hz; cbn [map].
  - apply sum_nil.
  - rewrite sum_cons, IH by (intros e He; apply Hz; right; exact He).
    rewrite (Hz h (or_introl eq_refl)). ring.
Qed.



(** The design matrix, its determinant and its inverse depend on x
    only. *)
Lemma returned_design (x y y' : list R) (r r' : regression) :
  ols_matrix x y = Ok r -> ols_matrix x y' = Ok r' ->
  xtx r' = xtx r /\ det r' = det r /\ xtx_inv r' = xtx_inv r.
Proof.
  intros Hr Hr'. invert_ols Hr. invert_ols Hr'. repeat split.
Qed.

Lemma sum_xy_shift (c : R) (x y : list R) :
  length x = length y ->
  sum (map (fun p => fst p * snd p) (zip x (map (fun yi => yi + c) y)))
  = sum (map (fun p => fst p * snd p) (zip x y)) + c * sum x.
Proof.
  unfold zip. revert y.
  induction x as [|a x IH]; intros [|b y] Hlen; try discriminate Hlen.
  - cbn [map combine]. rewrite !sum_nil. ring.
  - injection Hlen as Hlen.
    cbn [map combine fst snd]. rewrite !sum_cons, (IH y Hlen). ring.
Qed.

Lemma zip_shift_residual (c : R) (u v : list R) :
  map (fun p => fst p - snd p)
    (zip (map (fun t => t + c) u) (map (fun t => t + c) v))
  = map (fun p => fst p - snd p) (zip u v).
Proof.
  unfold zip. revert v.
  induction u as [|a u IH]; intros [|b v]; cbn [map combine fst snd];
    try reflexivity.
  rewrite IH. f_equal. ring.
Qed.



Lemma zip_fst (x y : list R) :
  length x = length y -> map fst (zip x y) = x.
Proof.
  unfold zip. revert y.
  induction x as [|a x IH]; intros [|b y] Hlen; try discriminate Hlen.
  - reflexivity.
  - injection Hlen as Hlen. cbn [map combine fst]. rewrite (IH y Hlen).
    reflexivity.
Qed.

Lemma zip_snd (x y : list R) :
  length x = length y -> map snd (zip x y) = y.
Proof.
  unfold zip. revert y.
  induction x as [|a x IH]; intros [|b y] Hlen; try discriminate Hlen.
  - reflexivity.
  - injection Hlen as Hlen. cbn [map combine snd]. rewrite (IH y Hlen).
    reflexivity.
Qed.

Lemma residuals_by_pair (c0 c1 : R) (x y : list R) :
  length x = length y ->
  map (fun p => fst p - snd p) (zip y (map (fun xi => c0 + c1 * xi) x))
  = map (fun q => snd q - (c0 + c1 * fst q)) (zip x y).
Proof.
  unfold zip. revert y.
  induction x as [|a x IH]; intros [|b y] Hlen; try discriminate Hlen.
  - reflexivity.
  - injection Hlen as Hlen. cbn [map combine fst snd]. rewrite (IH y Hlen).
    reflexivity.
Qed.



End LeastSquaresMore.

(** ** Sampling exercise *)

Module ExerciseFacts.
Import PyFacts Sampling SamplingFacts Exercise.

(** *** [min] and [max] of a list *)

Lemma min_from_spec (l : list R) :
  forall cur,
    In (min_from cur l) (cur :: l) /\
    forall v, In v (cur :: l) -> min_from cur l <= v.
Proof.
  induction l as [|x rest IH]; intros cur; cbn [min_from].
  - split; [left; reflexivity |].
    intros v [<- | []]. lra.
  - destruct (IH (if Rlt_dec x cur then x else cur)) as [Hin Hle].
    split.
    + destruct Hin as [Heq | Hin]; [| right; right; exact Hin].
      rewrite <- Heq. destruct (Rlt_dec x cur); [right; left | left]; reflexivity.
    + intros v Hv.
      assert (Hm : min_from (if Rlt_dec x cur then x else cur) rest
                   <= (if Rlt_dec x cur then x else cur))
        by (apply Hle; left; reflexivity).
      destruct Hv as [<- | [<- | Hv]].
      * destruct (Rlt_dec x cur); lra.
      * destruct (Rlt_dec x cur); lra.
      * apply Hle. right. exact Hv.
Qed.

Lemma max_from_spec (l : list R) :
  forall cur,
    In (max_from cur l) (cur :: l) /\
    forall v, In v (cur :: l) -> v <= max_from cur l.
Proof.
  induction l as [|x rest IH]; intros cur; cbn [max_from].
  - split; [left; reflexivity |].
    intros v [<- | []]. lra.
  - destruct (IH (if Rgt_dec x cur then x else cur)) as [Hin Hle].
    split.
    + destruct Hin as [Heq | Hin]; [| right; right; exact Hin].
      rewrite <- Heq. destruct (Rgt_dec x cur); [right; left | left]; reflexivity.
    + intros v Hv.
      assert (Hm : (if Rgt_dec x cur then x else cur)
                   <= max_from (if Rgt_dec x cur then x else cur) rest)
        by (apply Hle; left; reflexivity).
      destruct Hv as [<- | [<- | Hv]].
      * destruct (Rgt_dec x cur); lra.
      * destruct (Rgt_dec x cur); lra.
      * apply Hle. right. exact Hv.
Qed.

Lemma sum_bounds (lo hi : R) (l : list R) :
  (forall v, In v l -> lo <= v <= hi) ->
  INR (length l) * lo <= sum l <= INR (length l) * hi.
Proof.
  induction l as [|h t IH]; intros Hb.
  - cbn [length]. rewrite sum_nil. simpl INR. lra.
  - cbn [length]. rewrite sum_cons, S_INR.
    pose proof (Hb h (or_introl eq_refl)).
    assert (INR (length t) * lo <= sum t <= INR (length t) * hi)
      by (apply IH; intros v Hv; apply Hb; right; exact Hv).
    lra.
Qed.

(** *** [calc_stats] *)

Lemma calc_stats_empty : calc_stats [] = Raise (ZeroDivisionError 38).
Proof.
  unfold calc_stats. rewrite div_zero by reflexivity. reflexivity.
Qed.

Lemma calc_stats_single (v : R) :
  calc_stats [v] = Raise (ZeroDivisionError 39).
Proof.
  unfold calc_stats. simpl length.
  rewrite div_ok by (simpl; lra). rewrite bind_ok.
  rewrite div_zero by (simpl; lra). reflexivity.
Qed.

Lemma calc_stats_returns (data : list R) :
  (2 <= length data)%nat ->
  let m := sum data / INR (length data) in
  let var := sum (map (fun x => (x - m) ^ 2) data)
             / (INR (length data) - 1) in
  calc_stats data =
    Ok (mk_stats (length data) m var (sqrt var)
          (if Rneq_dec m 0 then Fin (sqrt var / m) else PInf)
          (min_from (hd 0 data) (tl data))
          (max_from (hd 0 data) (tl data))).
Proof.
  intros Hn m var.
  assert (Hn2 : 2 <= INR (length data)).
  { replace 2 with (INR 2) by (simpl; lra). apply le_INR; exact Hn. }
  unfold calc_stats.
  rewrite div_ok by lra. rewrite bind_ok.
  rewrite div_ok by lra. rewrite bind_ok.
  fold m. fold var.
  rewrite math_sqrt_ok, bind_ok.
  2:{ apply Rmult_le_pos.
      - apply (sum_squares_nonneg (fun x => x - m)).
      - left. apply Rinv_0_lt_compat. lra. }
  assert (Hcv : (if Rneq_dec m 0 then q <- div 41 (sqrt var) m ;; Ok (Fin q)
                 else Ok PInf)
                = Ok (if Rneq_dec m 0 then Fin (sqrt var / m) else PInf)).
  { destruct (Rneq_dec m 0) as [Hm | Hm].
    - rewrite div_ok by exact Hm. reflexivity.
    - reflexivity. }
  rewrite Hcv, bind_ok.
  destruct data as [|h t]; [simpl in Hn; lia |].
  reflexivity.
Qed.

Lemma calc_stats_accepts (data : list R) (s : stats) :
  calc_stats data = Ok s -> (2 <= length data)%nat.
Proof.
  intros Hs. destruct data as [|v [|w t]].
  - rewrite calc_stats_empty in Hs. discriminate Hs.
  - rewrite calc_stats_single in Hs. discriminate Hs.
  - simpl. lia.
Qed.

Lemma Ok_eq {A : Type} (a b : A) : Ok a = Ok b -> a = b.
Proof. intros H. injection H. auto. Qed.

Ltac invert_calc H :=
  let Hn := fresh "Hn" in
  pose proof (calc_stats_accepts _ _ H) as Hn;
  rewrite (calc_stats_returns _ Hn) in H;
  cbv zeta in H; apply Ok_eq in H; subst;
  cbv beta iota delta [n mean variance std_dev cv min max].

Lemma calc_stats_fields (data : list R) (s : stats) :
  calc_stats data = Ok s ->
  n s = length data /\ mean s = sum data / INR (length data) /\
  0 <= std_dev s /\
  cv s = (if Rneq_dec (mean s) 0 then Fin (std_dev s / mean s) else PInf).
Proof.
  intros Hs. invert_calc Hs.
  repeat split. apply sqrt_pos.
Qed.

Lemma calc_stats_range_aux (data : list R) (s : stats) :
  calc_stats data = Ok s ->
  In (min s) data /\ In (max s) data /\
  (forall v, In v data -> min s <= v <= max s).
Proof.
  intros Hs. invert_calc Hs.
  destruct data as [|h t]; [simpl in Hn; lia |].
  cbn [hd tl].
  destruct (min_from_spec t h) as [Hmin Hlo].
  destruct (max_from_spec t h) as [Hmax Hhi].
  repeat split; try assumption; [apply Hlo | apply Hhi]; assumption.
Qed.





(** *** Population and sample *)

Lemma map_nth_seq (l : list R) :
  map (fun j => nth j l 0) (seq 0 (length l)) = l.
Proof.
  induction l as [|a l IH].
  - reflexivity.
  - cbn [length seq map nth]. f_equal.
    rewrite <- seq_shift, map_map. exact IH.
Qed.

Lemma sum_nonneg (l : list R) :
  Forall (fun v => 0 <= v) l -> 0 <= sum l.
Proof.
  induction 1 as [|h t Hh _ IH].
  - rewrite sum_nil. lra.
  - rewrite sum_cons. lra.
Qed.

Lemma sum_nonneg_zero (l : list R) :
  Forall (fun v => 0 <= v) l -> sum l = 0 -> forall v, In v l -> v = 0.
Proof.
  induction 1 as [|h t Hh Ht IH]; intros Hs v Hv.
  - destruct Hv.
  - rewrite sum_cons in Hs.
    pose proof (sum_nonneg t Ht) as Hst.
    destruct Hv as [<- | Hv]; [lra |].
    apply IH; [lra | exact Hv].
Qed.

Section Pipeline.

Context {M : RandomModule}.

Lemma gauss_draws_app (mean std_dev : R) (k j : nat) :
  forall st,
    gauss_draws mean std_dev (k + j) st
    = (fst (gauss_draws mean std_dev k st)
       ++ fst (gauss_draws mean std_dev j
                 (snd (gauss_draws mean std_dev k st))),
       snd (gauss_draws mean std_dev j
              (snd (gauss_draws mean std_dev k st)))).
Proof.
  induction k as [|k IH]; intros st.
  - cbn [Nat.add gauss_draws fst snd app].
    destruct (gauss_draws mean std_dev j st). reflexivity.
  - cbn [Nat.add gauss_draws].
    destruct (random_gauss mean std_dev st) as [g st1].
    rewrite (IH st1).
    destruct (gauss_draws mean std_dev k st1) as [rest st2].
    cbn [fst snd]. reflexivity.
Qed.

(** X18: a population of n + k values is the population of n values
    from the same seed followed by the k values drawn next without
    reseeding, and the generator ends in the same state; so the
    population of n values is a prefix of every larger population from
    the same seed. *)
Theorem population_extends (mean std_dev : R) (n k : Z)
    (seed : option Z) (st : rng) :
  (0 <= n)%Z -> (0 <= k)%Z ->
  let first := generate_population mean std_dev n seed st in
  let more := generate_population mean std_dev k None (snd first) in
  generate_population mean std_dev (n + k) seed st
  = (fst first ++ fst more, snd more) /\
  fst first
  = firstn (Z.to_nat n)
      (fst (generate_population mean std_dev (n + k) seed st)).
Proof.
  intros Hn Hk first more.
  assert (Heq : generate_population mean std_dev (n + k) seed st
                = (fst first ++ fst more, snd more)).
  { unfold first, more, generate_population. cbn [reseed].
    rewrite Z2Nat.inj_add by assumption. apply gauss_draws_app. }
  split; [exact Heq |].
  rewrite Heq. cbn [fst].
  assert (Hlen : length (fst first) = Z.to_nat n)
    by (unfold first, generate_population; apply gauss_draws_length).
  rewrite <- Hlen, firstn_app, firstn_all, Nat.sub_diag.
  cbn [firstn]. rewrite app_nil_r. reflexivity.
Qed.


End Pipeline.

Lemma population_extends_witness :
  fst (generate_population (M := lcg_random) 100 25 2 (Some 42%Z) 0%Z)
  = firstn 2
      (fst (generate_population (M := lcg_random) 100 25 (2 + 3)
              (Some 42%Z) 0%Z)).
Proof.
  apply (population_extends (M := lcg_random) 100 25 2 3 (Some 42%Z) 0%Z);
    lia.
Defined.


Section Draw.

Context {M : RandomModule}.

Lemma draw_sample_returns (population : list R) (sample_size : Z)
    (seed : option Z) (st : rng) :
  sample_contract M -> (0 <= sample_size)%Z ->
  exists (idx : list nat) (st' : rng),
    draw_sample population sample_size seed st
    = Ok (map (fun j => nth j population 0) idx, st') /\
    length idx
    = Z.to_nat (Z.min sample_size (Z.of_nat (length population))) /\
    NoDup idx /\
    Forall (fun j => (j < length population)%nat) idx.
Proof.
  intros Hc Hs. unfold draw_sample, random_sample.
  set (k := Z.min sample_size (Z.of_nat (length population))).
  assert (Hk : (0 <= k <= Z.of_nat (length population))%Z)
    by (unfold k; lia).
  destruct (Z.ltb_spec k 0); [lia |].
  destruct (Z.ltb_spec (Z.of_nat (length population)) k); [lia |].
  cbn [orb].
  destruct (Hc (length population) (Z.to_nat k) (reseed seed st))
    as (Hlen & Hnd & Hlt); [lia |].
  destruct (choose_indices (length population) (Z.to_nat k)
              (reseed seed st)) as [idx st1].
  cbn [fst] in *. exists idx, st1. repeat split; assumption.
Qed.

(** X20: asking for at least as many elements as the population has
    returns the whole population, reordered: every element exactly as
    often as it occurs in the population. *)
Theorem whole_population_sample (population : list R) (sample_size : Z)
    (seed : option Z) (st : rng) :
  sample_contract M -> (Z.of_nat (length population) <= sample_size)%Z ->
  exists (smp : list R) (st' : rng),
    draw_sample population sample_size seed st = Ok (smp, st') /\
    Permutation smp population.
Proof.
  intros Hc Hs.
  destruct (draw_sample_returns population sample_size seed st Hc)
    as (idx & st' & Hd & Hlen & Hnd & Hlt); [lia |].
  exists (map (fun j => nth j population 0) idx), st'.
  split; [exact Hd |].
  assert (Hp : Permutation idx (seq 0 (length population))).
  { apply NoDup_Permutation_bis; [exact Hnd | |].
    - rewrite length_seq, Hlen. lia.
    - intros j Hj. rewrite Forall_forall in Hlt.
      apply in_seq. specialize (Hlt j Hj). lia. }
  apply (Permutation_map (fun j => nth j population 0)) in Hp.
  rewrite map_nth_seq in Hp. exact Hp.
Qed.

(** X21: a negative sample size is not clamped to zero: it reaches
    [random.sample], which raises ValueError; a sample size of zero
    returns the empty sample. *)
Theorem draw_sample_small_sizes (population : list R)
    (seed : option Z) (st : rng) :
  (forall sample_size : Z, (sample_size < 0)%Z ->
     draw_sample population sample_size seed st = Raise (ValueError 32)) /\
  (sample_contract M ->
   exists st', draw_sample population 0 seed st = Ok ([], st')).
Proof.
  split.
  - intros sample_size Hs. unfold draw_sample, random_sample.
    destruct (Z.ltb_spec (Z.min sample_size (Z.of_nat (length population))) 0);
      [reflexivity | lia].
  - intros Hc.
    destruct (draw_sample_returns population 0 seed st Hc)
      as (idx & st' & Hd & Hlen & _); [lia |].
    exists st'. rewrite Hd.
    replace (Z.min 0 (Z.of_nat (length population))) with 0%Z in Hlen by lia.
    destruct idx; [reflexivity | discriminate Hlen].
Qed.


End Draw.

Lemma whole_population_sample_witness :
  exists (smp : list R) (st' : Z),
    draw_sample (M := lcg_random) [10; 20; 30] 5 (Some 43%Z) 0%Z
    = Ok (smp, st') /\
    Permutation smp [10; 20; 30].
Proof.
  apply (whole_population_sample (M := lcg_random) [10; 20; 30] 5
           (Some 43%Z) 0%Z).
  - exact lcg_sample_contract.
  - simpl. lia.
Defined.

Lemma draw_sample_small_sizes_witness :
  draw_sample (M := lcg_random) [10; 20; 30] (-1) (Some 43%Z) 0%Z
  = Raise (ValueError 32) /\
  exists st', draw_sample (M := lcg_random) [10; 20; 30] 0 (Some 43%Z) 0%Z
              = Ok ([], st').
Proof.
  split.
  - apply (proj1 (draw_sample_small_sizes (M := lcg_random) [10; 20; 30]
                    (Some 43%Z) 0%Z)). lia.
  - apply (proj2 (draw_sample_small_sizes (M := lcg_random) [10; 20; 30]
                    (Some 43%Z) 0%Z)). exact lcg_sample_contract.
Defined.


(** *** Rounding *)

Lemma py_ceil_spec (r : R) : r <= IZR (py_ceil r) < r + 1.
Proof.
  unfold py_ceil. rewrite opp_IZR.
  destruct (base_Int_part (- r)) as [H1 H2]. lra.
Qed.

Lemma py_ceil_le (r : R) (k : Z) : r <= IZR k -> (py_ceil r <= k)%Z.
Proof.
  intros Hr. destruct (py_ceil_spec r) as [_ H2].
  assert (Hlt : IZR (py_ceil r) < IZR (k + 1)) by (rewrite plus_IZR; lra).
  apply lt_IZR in Hlt. lia.
Qed.

Lemma py_ceil_monotone (r1 r2 : R) :
  r1 <= r2 -> (py_ceil r1 <= py_ceil r2)%Z.
Proof.
  intros Hr. apply py_ceil_le. destruct (py_ceil_spec r2). lra.
Qed.

Lemma py_ceil_nonneg (r : R) : 0 <= r -> (0 <= py_ceil r)%Z.
Proof.
  intros Hr. apply le_IZR. destruct (py_ceil_spec r). lra.
Qed.

Lemma py_int_nonneg (r : R) : 0 <= r -> (0 <= py_int r)%Z.
Proof.
  intros Hr. unfold py_int. destruct (Rle_dec 0 r) as [_ | Hc]; [| contradiction].
  destruct (base_Int_part r) as [_ H2].
  assert (Hlt : IZR (-1) < IZR (Int_part r)) by lra.
  apply lt_IZR in Hlt. lia.
Qed.

Lemma py_int_le (r : R) (k : Z) : 0 <= r -> r <= IZR k -> (py_int r <= k)%Z.
Proof.
  intros H0 Hr. unfold py_int.
  destruct (Rle_dec 0 r) as [_ | Hc]; [| contradiction].
  destruct (base_Int_part r) as [H1 _].
  apply le_IZR. lra.
Qed.

Lemma py_int_IZR (k : Z) : (0 <= k)%Z -> py_int (IZR k) = k.
Proof.
  intros Hk. unfold py_int.
  destruct (Rle_dec 0 (IZR k)) as [_ | Hc].
  - symmetry. apply Int_part_spec. lra.
  - exfalso. apply Hc. apply IZR_le. exact Hk.
Qed.

(** *** The sample-size formulas *)





Section Table.

Variable normal_quantile : R -> R.

Lemma z_score_80 : z_score normal_quantile 80 = Ok 1.282.
Proof.
  unfold z_score, z_table. cbn [dict_get].
  destruct (Req_dec_T 80 80); [reflexivity | lra].
Qed.

Lemma z_score_85 : z_score normal_quantile 85 = Ok 1.440.
Proof.
  unfold z_score, z_table. cbn [dict_get].
  destruct (Req_dec_T 85 80); [lra |].
  destruct (Req_dec_T 85 85); [reflexivity | lra].
Qed.

Lemma z_score_95 : z_score normal_quantile 95 = Ok 1.960.
Proof.
  unfold z_score, z_table. cbn [dict_get].
  repeat (destruct (Req_dec_T 95 _); [lra |]).
  destruct (Req_dec_T 95 95); [reflexivity | lra].
Qed.

Lemma z_score_99 : z_score normal_quantile 99 = Ok 2.576.
Proof.
  unfold z_score, z_table. cbn [dict_get].
  repeat (destruct (Req_dec_T 99 _); [lra |]).
  destruct (Req_dec_T 99 99); [reflexivity | lra].
Qed.


End Table.


(** *** The scenario comparison *)

(** The population sizes for which the scenario comparison is meant:
    none, or a non-negative one. *)
Local Notation "'population_given' pop_size" :=
  (match pop_size with
   | Some N => (0 <= N)%Z
   | None => True
   end) (at level 10, pop_size at level 9, only parsing).

(** The value of [n_val] for a given [n0_val]. *)
Local Notation "'adjusted' pop_size n0_val" :=
  (match pop_size with
   | Some N =>
       if Z.eq_dec N 0 then n0_val%R
       else (n0_val * IZR N / (n0_val + IZR N))%R
   | None => n0_val%R
   end)
  (at level 10, pop_size at level 9, n0_val at level 9, only parsing).

Lemma corrected_size_value (pop_size : option Z) (n0_val : R) :
  population_given pop_size -> 0 <= n0_val ->
  corrected_size n0_val pop_size = Ok (adjusted pop_size n0_val).
Proof.
  intros Hp Hn. unfold corrected_size.
  destruct pop_size as [N |]; [| reflexivity].
  destruct (Z.eq_dec N 0) as [Hz | Hz]; [reflexivity |].
  apply sample_size_finite_value; [exact Hn |].
  apply IZR_lt. lia.
Qed.

Lemma adjusted_bounds (pop_size : option Z) (n0_val : R) :
  population_given pop_size -> 0 <= n0_val ->
  0 <= adjusted pop_size n0_val <= n0_val /\
  (forall N, pop_size = Some N -> (0 < N)%Z ->
             adjusted pop_size n0_val <= IZR N).
Proof.
  intros Hp Hn.
  destruct pop_size as [N |]; [| split; [lra | discriminate]].
  destruct (Z.eq_dec N 0) as [Hz | Hz].
  - split; [lra |]. intros N' HN' Hpos. injection HN' as <-. lia.
  - assert (HN : 0 < IZR N)
      by (apply IZR_lt; lia).
    assert (Hinv : 0 < / (n0_val + IZR N)) by (apply Rinv_0_lt_compat; lra).
    split; [split |].
    + apply Rmult_le_pos; [apply Rmult_le_pos |]; lra.
    + apply finite_correction_le; assumption.
    + intros N' HN' _. injection HN' as <-.
      replace (IZR N) with (IZR N / 1) at 3 by field.
      apply Rdiv_le_cross; nra.
Qed.

Lemma adjusted_monotone (pop_size : option Z) (a b : R) :
  population_given pop_size -> 0 <= a -> a <= b ->
  adjusted pop_size a <= adjusted pop_size b.
Proof.
  intros Hp Ha Hab.
  destruct pop_size as [N |]; [| exact Hab].
  destruct (Z.eq_dec N 0) as [Hz | Hz]; [exact Hab |].
  assert (HN : 0 < IZR N)
    by (apply IZR_lt; lia).
  apply Rdiv_le_cross; nra.
Qed.

Section Scenarios.

Variable normal_quantile : R -> R.

Lemma scenario_row_value (cv : R) (pop_size : option Z) (c p z : R) :
  z_score normal_quantile c = Ok z -> p <> 0 ->
  population_given pop_size ->
  scenario_row normal_quantile cv pop_size c p
  = Ok (mk_scenario c p (py_ceil ((z * cv / p) ^ 2))
          (py_ceil (adjusted pop_size ((z * cv / p) ^ 2)))).
Proof.
  intros Hz Hp Hpop. unfold scenario_row.
  rewrite Hz, bind_ok, sample_size_infinite_value by exact Hp.
  rewrite bind_ok, corrected_size_value by (try assumption; apply pow2_ge_0).
  reflexivity.
Qed.

(** What holds of a line of the comparison. *)
Local Notation "'row_invariant' cv pop_size" :=
  (fun row : scenario =>
     exists z,
       In (conf row, z) [(80, 1.282); (90, 1.645); (95, 1.960)] /\
       In (prec row) [0.05; 0.10; 0.20] /\
       n0_ceil row = py_ceil ((z * cv / prec row) ^ 2) /\
       n_ceil row = py_ceil (adjusted pop_size ((z * cv / prec row) ^ 2)))
  (at level 10, cv at level 9, pop_size at level 9, only parsing).

Lemma scenario_comparison_rows (cv : R) (pop_size : option Z) :
  population_given pop_size ->
  exists rows,
    scenario_comparison normal_quantile cv pop_size = Ok rows /\
    map (fun row => (conf row, prec row)) rows
    = [(80, 0.05); (80, 0.10); (80, 0.20);
       (90, 0.05); (90, 0.10); (90, 0.20);
       (95, 0.05); (95, 0.10); (95, 0.20)] /\
    Forall (row_invariant cv pop_size) rows.
Proof.
  intros Hpop. unfold scenario_comparison. cbn [for_each].
  rewrite !(scenario_row_value cv pop_size 80 _ 1.282)
    by (try apply z_score_80; try assumption; lra).
  rewrite !(scenario_row_value cv pop_size 90 _ 1.645)
    by (try apply z_score_90; try assumption; lra).
  rewrite !(scenario_row_value cv pop_size 95 _ 1.960)
    by (try apply z_score_95; try assumption; lra).
  cbn [bind concat app]. eexists. split; [reflexivity |].
  split; [reflexivity |].
  repeat constructor;
    cbn [conf prec n0_ceil n_ceil];
    first [exists 1.282; repeat split; [cbn; tauto | cbn; tauto]
          | exists 1.645; repeat split; [cbn; tauto | cbn; tauto]
          | exists 1.960; repeat split; [cbn; tauto | cbn; tauto]].
Qed.

Lemma n0_monotone (z1 z2 cv p1 p2 : R) :
  0 <= z1 -> z1 <= z2 -> 0 < p2 -> p2 <= p1 ->
  (z1 * cv / p1) ^ 2 <= (z2 * cv / p2) ^ 2.
Proof.
  intros Hz1 Hz Hp2 Hp.
  replace ((z1 * cv / p1) ^ 2) with ((z1 * cv) ^ 2 / p1 ^ 2) by (field; lra).
  replace ((z2 * cv / p2) ^ 2) with ((z2 * cv) ^ 2 / p2 ^ 2) by (field; lra).
  assert (Ha : 0 <= (z1 * cv) ^ 2) by apply pow2_ge_0.
  assert (Hab : (z1 * cv) ^ 2 <= (z2 * cv) ^ 2).
  { replace ((z1 * cv) ^ 2) with (z1 ^ 2 * cv ^ 2) by ring.
    replace ((z2 * cv) ^ 2) with (z2 ^ 2 * cv ^ 2) by ring.
    apply Rmult_le_compat_r; [apply pow2_ge_0 | nra]. }
  assert (Hq : 0 <= p2 ^ 2 <= p1 ^ 2) by nra.
  apply Rdiv_le_cross; [nra | nra |].
  apply Rmult_le_compat; lra.
Qed.


End Scenarios.


(** *** [histogram] *)

Local Notation "'zsum' l" :=
  (fold_right Z.add 0%Z l) (at level 10, l at level 9, only parsing).

(** The bin of an observation, line 72. *)
Local Notation "'bin_index' lo width bins x" :=
  (Z.min (py_int ((x - lo) / width)) (bins - 1))
  (at level 10, lo at level 9, width at level 9, bins at level 9,
   x at level 9, only parsing).

(** The data hold two different values. *)
Local Notation "'varied' data" :=
  (exists x y : R, In x data /\ In y data /\ x <> y)
  (at level 10, data at level 9, only parsing).

Lemma incr_nth_length (i : nat) (counts : list Z) :
  length (incr_nth i counts) = length counts.
Proof.
  revert i. induction counts as [|c rest IH]; intros i;
    [destruct i; reflexivity |].
  destruct i as [|i']; cbn [incr_nth length]; [reflexivity |].
  rewrite IH. reflexivity.
Qed.

Lemma incr_nth_sum (i : nat) (counts : list Z) :
  (i < length counts)%nat ->
  zsum (incr_nth i counts) = (zsum counts + 1)%Z.
Proof.
  revert i. induction counts as [|c rest IH]; intros i Hi;
    [cbn [length] in Hi; lia |].
  destruct i as [|i']; cbn [incr_nth fold_right]; [lia |].
  rewrite IH by (cbn [length] in Hi; lia). lia.
Qed.

Lemma incr_nth_nth (i j : nat) (counts : list Z) :
  (i < length counts)%nat ->
  nth j (incr_nth i counts) 0%Z
  = (nth j counts 0 + (if Nat.eqb i j then 1 else 0))%Z.
Proof.
  revert i j. induction counts as [|c rest IH]; intros i j Hi;
    [cbn [length] in Hi; lia |].
  destruct i as [|i']; destruct j as [|j']; cbn [incr_nth nth Nat.eqb];
    try lia.
  apply IH. cbn [length] in Hi. lia.
Qed.

Lemma list_incr_in_range (lineno : nat) (counts : list Z) (idx : Z) :
  (0 <= idx < Z.of_nat (length counts))%Z ->
  list_incr lineno counts idx = Returns (incr_nth (Z.to_nat idx) counts).
Proof.
  intros [H0 H1]. unfold list_incr.
  destruct (Z.ltb_spec idx 0) as [Hneg | _]; [lia |].
  destruct (Z.ltb_spec idx 0) as [Hneg | _]; [lia |].
  destruct (Z.leb_spec (Z.of_nat (length counts)) idx) as [Hge | _]; [lia |].
  reflexivity.
Qed.

Lemma list_incr_empty (lineno : nat) (idx : Z) :
  list_incr lineno [] idx = RaisesIndexError lineno.
Proof.
  unfold list_incr. cbn [length Z.of_nat].
  destruct (Z.ltb_spec idx 0) as [Hneg | Hpos].
  - destruct (Z.ltb_spec (idx + 0) 0) as [_ | Hc]; [reflexivity | lia].
  - destruct (Z.ltb_spec idx 0) as [Hc | _]; [lia |].
    destruct (Z.leb_spec 0 idx) as [_ | Hc]; [reflexivity | lia].
Qed.

Lemma py_int_bounds (q : R) :
  0 <= q -> IZR (py_int q) <= q < IZR (py_int q) + 1.
Proof.
  intros Hq. unfold py_int.
  destruct (Rle_dec 0 q) as [_ | Hc]; [| contradiction].
  destruct (base_Int_part q) as [H1 H2]. lra.
Qed.

Lemma le_py_int (i : Z) (q : R) :
  0 <= q -> ((i <= py_int q)%Z <-> IZR i <= q).
Proof.
  intros Hq. destruct (py_int_bounds q Hq) as [H1 H2]. split.
  - intros Hi. apply IZR_le in Hi. lra.
  - intros Hi.
    assert (Hlt : IZR i < IZR (py_int q + 1)) by (rewrite plus_IZR; lra).
    apply lt_IZR in Hlt. lia.
Qed.

Lemma quotient_nonneg (lo width x : R) :
  0 < width -> lo <= x -> 0 <= (x - lo) / width.
Proof.
  intros Hw Hx. apply Rmult_le_pos; [lra |].
  apply Rlt_le, Rinv_0_lt_compat. exact Hw.
Qed.

Lemma le_quotient (lo width x a : R) :
  0 < width -> (a <= (x - lo) / width <-> lo + a * width <= x).
Proof.
  intros Hw.
  assert (Hx : x = lo + (x - lo) / width * width) by (field; lra).
  set (q := (x - lo) / width) in *. split; intros H; nra.
Qed.

Lemma bin_index_range (lo width : R) (bins : Z) (x : R) :
  0 < width -> lo <= x -> (0 < bins)%Z ->
  (0 <= bin_index lo width bins x < bins)%Z.
Proof.
  intros Hw Hx Hb.
  pose proof (py_int_nonneg _ (quotient_nonneg lo width x Hw Hx)). lia.
Qed.

(** The bin of an observation by the edges: bin [i] holds what lies
    from its edge up to the next edge, the last bin all from its edge
    on. *)
Lemma bin_index_interval (lo width : R) (bins : Z) (x : R) (i : nat) :
  0 < width -> lo <= x -> (0 < bins)%Z -> (i < Z.to_nat bins)%nat ->
  (bin_index lo width bins x =? Z.of_nat i)%Z
  = (if Rle_dec (lo + INR i * width) x
     then if Nat.eq_dec (S i) (Z.to_nat bins) then true
          else if Rlt_dec x (lo + INR i * width + width) then true
               else false
     else false).
Proof.
  intros Hw Hx Hb Hi.
  pose proof (quotient_nonneg lo width x Hw Hx) as Hq.
  pose proof (le_py_int (Z.of_nat i) _ Hq) as Hle.
  pose proof (le_py_int (Z.of_nat i + 1) _ Hq) as Hle1.
  rewrite (le_quotient lo width x _ Hw) in Hle.
  rewrite (le_quotient lo width x _ Hw) in Hle1.
  rewrite plus_IZR, <- INR_IZR_INZ in Hle1.
  rewrite <- INR_IZR_INZ in Hle.
  set (k := py_int ((x - lo) / width)) in *.
  destruct (Rle_dec (lo + INR i * width) x) as [He | He].
  - apply Hle in He.
    destruct (Nat.eq_dec (S i) (Z.to_nat bins)) as [Hlast | Hlast].
    + apply Z.eqb_eq. lia.
    + destruct (Rlt_dec x (lo + INR i * width + width)) as [Hn | Hn].
      * assert (Hk : ~ (Z.of_nat i + 1 <= k)%Z)
          by (intros Hc; apply Hle1 in Hc; lra).
        apply Z.eqb_eq. lia.
      * assert (Hk : (Z.of_nat i + 1 <= k)%Z) by (apply Hle1; lra).
        apply Z.eqb_neq. lia.
  - assert (Hk : ~ (Z.of_nat i <= k)%Z)
      by (intros Hc; apply Hle in Hc; contradiction).
    apply Z.eqb_neq. lia.
Qed.

Lemma zsum_repeat_zero (n : nat) : zsum (repeat 0%Z n) = 0%Z.
Proof.
  induction n as [|n IH]; [reflexivity |].
  cbn [repeat fold_right]. rewrite IH. reflexivity.
Qed.

Lemma nth_repeat_zero (j n : nat) : nth j (repeat 0%Z n) 0%Z = 0%Z.
Proof.
  revert j. induction n as [|n IH]; intros [|j]; cbn [repeat nth];
    try reflexivity.
  apply IH.
Qed.

(** The loop of lines 71-73 on a positive width: every observation
    raises the count of its bin by one. *)
Lemma fill_counts_returns (lo width : R) (bins : Z) (data : list R) :
  0 < width -> (0 < bins)%Z -> (forall x, In x data -> lo <= x) ->
  forall counts, length counts = Z.to_nat bins ->
    exists counts',
      fill_counts lo width bins data counts = Returns counts' /\
      length counts' = Z.to_nat bins /\
      zsum counts' = (zsum counts + Z.of_nat (length data))%Z /\
      forall j,
        nth j counts' 0%Z
        = (nth j counts 0
           + Z.of_nat
               (length
                  (filter
                     (fun x => (bin_index lo width bins x =? Z.of_nat j)%Z)
                     data)))%Z.
Proof.
  intros Hw Hb. induction data as [|x rest IH]; intros Hlo counts Hlen.
  - exists counts. cbn [fill_counts length filter Z.of_nat].
    split; [reflexivity |]. split; [exact Hlen |].
    split; [lia |]. intros j. lia.
  - cbn [fill_counts]. unfold div.
    destruct (Req_dec_T width 0) as [Hz | _]; [lra |].
    assert (Hx : lo <= x) by (apply Hlo; left; reflexivity).
    pose proof (bin_index_range lo width bins x Hw Hx Hb) as Hidx.
    cbv zeta.
    rewrite list_incr_in_range by (rewrite Hlen; lia).
    set (idx := bin_index lo width bins x) in *.
    destruct (IH (fun v Hv => Hlo v (or_intror Hv))
                 (incr_nth (Z.to_nat idx) counts))
      as (counts' & Hrun & Hlen' & Hsum & Hnth).
    { rewrite incr_nth_length. exact Hlen. }
    exists counts'. split; [exact Hrun |]. split; [exact Hlen' |]. split.
    + rewrite Hsum, incr_nth_sum by (rewrite Hlen; lia).
      cbn [length]. lia.
    + intros j. rewrite Hnth, incr_nth_nth by (rewrite Hlen; lia).
      cbn [filter]. fold idx.
      destruct (Nat.eqb_spec (Z.to_nat idx) j) as [Hj | Hj];
        destruct (Z.eqb_spec idx (Z.of_nat j)) as [Hz | Hz];
        cbn [length]; lia.
Qed.

Lemma zmax_from_spec (l : list Z) :
  forall cur,
    In (zmax_from cur l) (cur :: l) /\
    forall v, In v (cur :: l) -> (v <= zmax_from cur l)%Z.
Proof.
  induction l as [|c rest IH]; intros cur; cbn [zmax_from].
  - split; [left; reflexivity |]. intros v [<- | []]. lia.
  - destruct (IH (if (cur <? c)%Z then c else cur)) as [Hin Hle].
    split.
    + destruct Hin as [Heq | Hin]; [| right; right; exact Hin].
      rewrite <- Heq.
      destruct (cur <? c)%Z; [right; left | left]; reflexivity.
    + intros v Hv.
      assert (Hm : ((if (cur <? c)%Z then c else cur)
                    <= zmax_from (if (cur <? c)%Z then c else cur) rest)%Z)
        by (apply Hle; left; reflexivity).
      destruct Hv as [<- | [<- | Hv]].
      * destruct (Z.ltb_spec cur c); lia.
      * destruct (Z.ltb_spec cur c); lia.
      * apply Hle. right. exact Hv.
Qed.

Lemma zmap_nth_seq (l : list Z) :
  map (fun j => nth j l 0%Z) (seq 0 (length l)) = l.
Proof.
  induction l as [|a l IH].
  - reflexivity.
  - cbn [length seq map nth]. f_equal.
    rewrite <- seq_shift, map_map. exact IH.
Qed.

Lemma varied_spread (x0 : R) (rest : list R) :
  varied (x0 :: rest) -> min_from x0 rest < max_from x0 rest.
Proof.
  intros (x & y & Hx & Hy & Hxy).
  destruct (min_from_spec rest x0) as [_ Hlo].
  destruct (max_from_spec rest x0) as [_ Hhi].
  pose proof (Hlo x Hx). pose proof (Hhi x Hx).
  pose proof (Hlo y Hy). pose proof (Hhi y Hy).
  destruct (Rlt_dec (min_from x0 rest) (max_from x0 rest)) as [Hlt | Hge];
    [exact Hlt |].
  exfalso. apply Hxy. lra.
Qed.

Lemma constant_spread (x0 : R) (rest : list R) :
  (forall x y, In x (x0 :: rest) -> In y (x0 :: rest) -> x = y) ->
  max_from x0 rest = min_from x0 rest.
Proof.
  intros Hc.
  destruct (min_from_spec rest x0) as [Hlo _].
  destruct (max_from_spec rest x0) as [Hhi _].
  apply Hc; assumption.
Qed.

(** [histogram] on a positive number of bins and data that are not all
    equal: what it computes before printing. *)
Lemma histogram_returns (data : list R) (bins : Z) :
  (0 < bins)%Z -> varied data ->
  exists lo hi counts,
    py_min_list 68 data = Ok lo /\ py_max_list 68 data = Ok hi /\
    lo < hi /\ (forall v, In v data -> lo <= v <= hi) /\
    In lo data /\ In hi data /\
    length counts = Z.to_nat bins /\
    zsum counts = Z.of_nat (length data) /\
    (forall j,
       nth j counts 0%Z
       = Z.of_nat
           (length
              (filter
                 (fun x =>
                    (bin_index lo ((hi - lo) / IZR bins) bins x
                     =? Z.of_nat j)%Z)
                 data))) /\
    histogram data bins
    = Returns
        (map (fun i =>
                mk_bin_row (lo + INR i * ((hi - lo) / IZR bins))
                  (bar_of (nth i counts 0%Z)
                     (zmax_from (hd 0%Z counts) (tl counts)) 40)
                  (nth i counts 0%Z))
           (seq 0 (Z.to_nat bins))).
Proof.
  intros Hb Hv.
  destruct data as [|x0 rest]; [destruct Hv as (x & _ & [] & _) |].
  pose proof (varied_spread x0 rest Hv) as Hspread.
  destruct (min_from_spec rest x0) as [Hlo_in Hlo].
  destruct (max_from_spec rest x0) as [Hhi_in Hhi].
  assert (HB : 0 < IZR bins) by (apply IZR_lt; exact Hb).
  set (lo := min_from x0 rest) in *. set (hi := max_from x0 rest) in *.
  assert (Hw : 0 < (hi - lo) / IZR bins).
  { apply Rmult_lt_0_compat; [lra | apply Rinv_0_lt_compat; exact HB]. }
  destruct (fill_counts_returns lo ((hi - lo) / IZR bins) bins (x0 :: rest)
              Hw Hb Hlo (repeat 0%Z (Z.to_nat bins)) (repeat_length _ _))
    as (counts & Hrun & Hlen & Hsum & Hnth).
  exists lo, hi, counts.
  split; [reflexivity |]. split; [reflexivity |]. split; [exact Hspread |].
  split; [intros v Hin; split; [apply Hlo | apply Hhi]; exact Hin |].
  split; [exact Hlo_in |]. split; [exact Hhi_in |].
  split; [exact Hlen |].
  split; [rewrite Hsum, zsum_repeat_zero; reflexivity |].
  split; [intros j; rewrite Hnth, nth_repeat_zero; reflexivity |].
  unfold histogram. cbn [py_min_list py_max_list]. fold lo hi.
  unfold div. destruct (Req_dec_T (IZR bins) 0) as [Hz | _]; [lra |].
  cbv zeta. rewrite Hrun.
  destruct counts as [|c cs]; [cbn [length] in Hlen; lia |].
  reflexivity.
Qed.

Lemma histogram_empty (bins : Z) :
  histogram [] bins = Raises (ValueError 68).
Proof. reflexivity. Qed.

(** [histogram] on data that are not empty, by the number of bins and
    by the least and the greatest value. *)
Lemma histogram_raises (x0 : R) (rest : list R) (bins : Z) :
  (bins = 0%Z ->
   histogram (x0 :: rest) bins = Raises (ZeroDivisionError 69)) /\
  (bins <> 0%Z -> max_from x0 rest = min_from x0 rest ->
   histogram (x0 :: rest) bins = Raises (ZeroDivisionError 72)) /\
  ((bins < 0)%Z -> max_from x0 rest <> min_from x0 rest ->
   histogram (x0 :: rest) bins = RaisesIndexError 73).
Proof.
  unfold histogram. cbn [py_min_list py_max_list].
  set (lo := min_from x0 rest). set (hi := max_from x0 rest).
  split; [| split].
  - intros ->. unfold div.
    destruct (Req_dec_T (IZR 0) 0) as [_ | Hc]; [reflexivity | lra].
  - intros Hb Heq. unfold div at 1.
    assert (HB : IZR bins <> 0) by (apply not_0_IZR; exact Hb).
    destruct (Req_dec_T (IZR bins) 0) as [Hz | _]; [contradiction |].
    cbv zeta. cbn [fill_counts]. unfold div.
    destruct (Req_dec_T ((hi - lo) / IZR bins) 0) as [_ | Hn];
      [reflexivity |].
    exfalso. apply Hn. rewrite Heq. unfold Rdiv. ring.
  - intros Hb Hne. unfold div at 1.
    assert (HB : IZR bins < 0) by (apply IZR_lt; exact Hb).
    destruct (Req_dec_T (IZR bins) 0) as [Hz | _]; [lra |].
    cbv zeta. cbn [fill_counts]. unfold div.
    destruct (Req_dec_T ((hi - lo) / IZR bins) 0) as [Hz | _].
    + exfalso. apply Hne.
      assert (Hm : (hi - lo) / IZR bins * IZR bins = 0)
        by (rewrite Hz; ring).
      assert (Hd : (hi - lo) / IZR bins * IZR bins = hi - lo)
        by (field; lra).
      lra.
    + replace (Z.to_nat bins) with 0%nat by lia.
      cbn [repeat]. rewrite list_incr_empty. reflexivity.
Qed.





Lemma filter_hit {A : Type} (f : A -> bool) (l : list A) (a : A) :
  In a l -> f a = true -> (1 <= length (filter f l))%nat.
Proof.
  intros Hin Hf.
  assert (Hq : In a (filter f l)) by (apply filter_In; split; assumption).
  destruct (filter f l) as [|b t]; [destruct Hq | cbn [length]; lia].
Qed.

Lemma py_int_monotone (a b : R) :
  0 <= a -> a <= b -> (py_int a <= py_int b)%Z.
Proof.
  intros Ha Hab. apply le_py_int; [lra |].
  destruct (py_int_bounds a Ha). lra.
Qed.

Lemma bar_of_hashes (c max_count bar_width : Z) :
  bar_of c max_count bar_width
  = repeat "#"%char (length (bar_of c max_count bar_width)).
Proof.
  unfold bar_of. destruct (0 <? max_count)%Z; [| reflexivity].
  rewrite repeat_length. reflexivity.
Qed.

Lemma bar_of_length (c max_count : Z) :
  (0 < max_count)%Z ->
  length (bar_of c max_count 40)
  = Z.to_nat (py_int (IZR c / IZR max_count * 40)).
Proof.
  intros Hm. unfold bar_of.
  destruct (Z.ltb_spec 0 max_count) as [_ | Hc]; [| lia].
  apply repeat_length.
Qed.

Lemma bar_fraction (c max_count : Z) :
  (0 < max_count)%Z -> (0 <= c <= max_count)%Z ->
  0 <= IZR c / IZR max_count * 40 <= 40.
Proof.
  intros Hm [H0 H1].
  apply IZR_lt in Hm. apply IZR_le in H0. apply IZR_le in H1.
  assert (Hq : 0 <= IZR c / IZR max_count <= 1).
  { split.
    - apply Rmult_le_pos; [lra | apply Rlt_le, Rinv_0_lt_compat; lra].
    - replace 1 with (1 / 1) by field. apply Rdiv_le_cross; lra. }
  lra.
Qed.

(** The lines of [histogram] by the greatest count. *)
Lemma histogram_rows_facts (data : list R) (bins : Z) :
  (0 < bins)%Z -> varied data ->
  exists rows max_count,
    histogram data bins = Returns rows /\
    (0 < max_count)%Z /\
    (forall r, In r rows ->
       (0 <= count r <= max_count)%Z /\
       bar r = bar_of (count r) max_count 40) /\
    (exists r, In r rows /\ count r = max_count).
Proof.
  intros Hb Hv.
  destruct (histogram_returns data bins Hb Hv)
    as (lo & hi & counts & _ & _ & Hspread & Hrange & Hlo_in & _
        & Hlen & _ & Hnth & Hrun).
  assert (HB : 0 < IZR bins) by (apply IZR_lt; exact Hb).
  assert (Hw : 0 < (hi - lo) / IZR bins).
  { apply Rmult_lt_0_compat; [lra | apply Rinv_0_lt_compat; exact HB]. }
  destruct counts as [|c cs]; [cbn [length] in Hlen; lia |].
  destruct (zmax_from_spec cs c) as [Hmax_in Hmax].
  cbn [hd tl] in Hrun.
  set (max_count := zmax_from c cs) in *.
  assert (Hfirst : (1 <= nth 0 (c :: cs) 0)%Z).
  { rewrite Hnth.
    pose proof (filter_hit
                  (fun x =>
                     (Z.min (py_int ((x - lo) / ((hi - lo) / IZR bins)))
                        (bins - 1) =? Z.of_nat 0)%Z)
                  data lo Hlo_in) as Hhit.
    cbv beta in Hhit.
    assert (Hq : (lo - lo) / ((hi - lo) / IZR bins) = IZR 0)
      by (unfold Rdiv; ring).
    rewrite Hq, py_int_IZR in Hhit by lia.
    assert (Hone : (1 <= length
                      (filter
                         (fun x =>
                            (Z.min (py_int ((x - lo) / ((hi - lo) / IZR bins)))
                               (bins - 1) =? Z.of_nat 0)%Z) data))%nat).
    { apply Hhit. apply Z.eqb_eq. cbn [Z.of_nat]. lia. }
    lia. }
  assert (Hpos : (0 < max_count)%Z).
  { cbn [nth] in Hfirst.
    pose proof (Hmax c (or_introl eq_refl)). lia. }
  eexists. exists max_count. split; [exact Hrun |].
  split; [exact Hpos |]. split.
  - intros r Hr. apply in_map_iff in Hr. destruct Hr as (i & <- & Hi).
    apply in_seq in Hi. cbn [count bar]. split; [| reflexivity].
    split.
    + rewrite Hnth. lia.
    + apply Hmax. apply nth_In. rewrite Hlen. lia.
  - destruct (In_nth _ _ 0%Z Hmax_in) as (i & Hi & Hval).
    eexists. split.
    + apply in_map_iff. exists i. split; [reflexivity |].
      apply in_seq. rewrite <- Hlen. lia.
    + cbn [count]. exact Hval.
Qed.



(** *** The whole report of [run_sample_size_calc] *)

Section Report.

Variable normal_quantile : R -> R.


End Report.


End ExerciseFacts.
